(** * InventoryApp: the item-editing and barcode-capture workflow

    A shallow embedding of [src/components/InventoryApp.tsx] (the revision with
    barcode support): the item store kept in [localStorage], the React
    component's state and its event handlers, and the camera scanner session.

    Conventions of the embedding.
    - The [localStorage] slot ['items'] is represented by its parsed value.  The
      only writer is this program, which stores [JSON.stringify] of an array of
      item records; on such records (finite numbers, optional string field)
      [JSON.parse (JSON.stringify x)] is [x], a field that is [undefined] being
      left out and an empty string being kept.
    - A string is kept as the bytes of its UTF-8 form; two well-formed texts
      are equal, or one contains the other, on the bytes exactly when they are
      on the code units JavaScript compares.
    - An [async] handler is run to completion: the model gives the state once
      every [await] has settled.
    - Storage reads and writes succeed, and the slot holds nothing or an array
      of item records: the [catch] clauses of [loadInventory] and [deleteItem],
      which are for a storage that throws, are not part of the model, and
      [error] stays [null].
    - [Date.now()], the outcome of the camera calls and
      [String.prototype.toLowerCase] are supplied by the environment.
    - The form of the dialog hands its fields to [handleSubmit] as
      [formData]; the browser's validation of the fields before the submit
      event is [submitButton].
    - Left out: styling and markup, the effect that gives the hidden input the
      focus, and [codeReaderRef], which only holds the reader that
      [initScanner] has just created. *)

From Stdlib Require Import ZArith QArith List String Ascii Bool Lia.
From Stdlib Require Import Sorted.
Import ListNotations.

Local Open Scope string_scope.
Local Open Scope list_scope.
Local Open Scope bool_scope.

(* ------------------------------------------------------------------ *)
(** ** JavaScript values and string primitives *)

Module Js.

(** A JavaScript [number] as [Number(text)] may return it: [NaN], or a value.
    Finite doubles are rationals, and the program only compares a number with
    zero, so the value is kept as a rational. *)
Inductive number : Type :=
| NaN
| Num (q : Q).

(** [n > 0]; any comparison with [NaN] is false. *)
Definition gt0 (n : number) : bool :=
  match n with
  | NaN => false
  | Num q => negb (Qle_bool q 0)
  end.

(** Truthiness of a string: every string but the empty one. *)
Definition truthy (s : string) : bool :=
  match s with
  | EmptyString => false
  | String _ _ => true
  end.

(** Truthiness of an integral number: every one but zero. *)
Definition truthyZ (z : Z) : bool := negb (z =? 0)%Z.

(** The letters A to Z become a to z and every other character is kept. *)
Definition lowerChar (c : ascii) : ascii :=
  let n := nat_of_ascii c in
  if (65 <=? n)%nat && (n <=? 90)%nat then ascii_of_nat (n + 32) else c.

(** What [s.toLowerCase()] is when [s] is text of the ASCII range. *)
Fixpoint asciiLower (s : string) : string :=
  match s with
  | EmptyString => EmptyString
  | String c s' => String (lowerChar c) (asciiLower s')
  end.

(** Text of the ASCII range: every character is below 128. *)
Fixpoint isAscii (s : string) : bool :=
  match s with
  | EmptyString => true
  | String (Ascii _ _ _ _ _ _ _ b7) s' => negb b7 && isAscii s'
  end.

(** [String.prototype.toLowerCase] is a function of the engine that runs the
    page.  It follows the case mappings of the Unicode version the engine
    carries, and it does not work character by character (a capital sigma that
    ends a word has a lower-case form of its own).  The model takes the
    function as given and relies on one fact about it: on text of the ASCII
    range it turns the letters A to Z into a to z and changes nothing else. *)
Record Engine : Type := mkEngine {
  toLowerCase : string -> string;
  toLowerCase_ascii : forall s, isAscii s = true -> toLowerCase s = asciiLower s
}.

(** An engine as far as ASCII text goes; the examples whose text is ASCII run
    on it. *)
Definition asciiEngine : Engine := mkEngine asciiLower (fun s _ => eq_refl).

(** An engine for an example in Greek.  It lower-cases the two strings below
    as ECMAScript does: ["ΑΣ".toLowerCase()] is ["ας"], the sigma that ends a
    word taking its final form, and ["Σ".toLowerCase()] is ["σ"].  Elsewhere it
    is [asciiEngine], which is right on ASCII text. *)
Definition sigmaLower (s : string) : string :=
  if String.eqb s "ΑΣ" then "ας"
  else if String.eqb s "Σ" then "σ"
  else asciiLower s.

Definition sigmaEngine : Engine :=
  mkEngine sigmaLower
    ltac:(intros s Hs; unfold sigmaLower;
          destruct (String.eqb_spec s "ΑΣ") as [-> | _]; [discriminate Hs |];
          destruct (String.eqb_spec s "Σ") as [-> | _]; [discriminate Hs |];
          reflexivity).

(** [s.startsWith(q)]. *)
Fixpoint startsWith (s q : string) {struct q} : bool :=
  match q, s with
  | EmptyString, _ => true
  | String _ _, EmptyString => false
  | String b q', String a s' => Ascii.eqb a b && startsWith s' q'
  end.

(** [s.includes(q)]: [q] occurs in [s] at some position. *)
Fixpoint includes (s q : string) : bool :=
  startsWith s q ||
  match s with
  | EmptyString => false
  | String _ s' => includes s' q
  end.

End Js.

(* ------------------------------------------------------------------ *)
(** ** Data model *)

(** [interface Item].  An [id] is either a reading of [Date.now()] (whole
    milliseconds) or the literal [0], hence an integer; [quantity] is whatever
    [Number] made of the form field; [barcode?] is an optional field. *)
Record Item : Type := mkItem {
  id : Z;
  name : string;
  quantity : Js.number;
  barcode : option string
}.

(** [Omit<Item, 'id'>], the argument of [api.addItem]. *)
Record NewItem : Type := mkNewItem {
  new_name : string;
  new_quantity : Js.number;
  new_barcode : option string
}.

(** The severities ["success" | "error" | "info" | "warning"]; [error_] is
    "error", the plain name being the state cell [error]. *)
Inductive Severity : Type := success | error_ | info | warning.

(** [interface SnackbarState]. *)
Record SnackbarState : Type := mkSnackbar {
  open : bool;
  message : string;
  severity : Severity
}.

(** What the submit handler reads from [FormData]: [name] and [barcode] as the
    strings of their fields, [quantity] after [Number(...)]. *)
Record FormData : Type := mkForm {
  form_name : string;
  form_quantity : Js.number;
  form_barcode : string
}.

(** The [useState] cells of the component. *)
Record State : Type := mkState {
  items : list Item;
  filteredItems : list Item;
  loading : bool;
  error : option string;
  editItem : option Item;
  isDialogOpen : bool;
  snackbar : SnackbarState;
  search : string;
  isScannerOpen : bool
}.

(** What leaves the component: calls made on [api], notifications
    ([setSnackbar]), [console.error], and a promise that rejects with nobody
    awaiting it. *)
Inductive Effect : Type :=
| CallAddItem (item : NewItem)
| CallUpdateItem (item : Item)
| CallDeleteItem (i : Z)
| Notify (s : SnackbarState)
| ConsoleError
| UnhandledRejection.

(** A running decode loop of [decodeFromVideoDevice]: it holds the camera
    stream, and its callback is the closure built by the render in which the
    scanner was opened, so it resolves bar codes against the [items] of that
    render. *)
Record Session : Type := mkSession {
  captured_items : list Item
}.

(** The camera as the scanner start finds it. *)
Record Camera : Type := mkCamera {
  (** what [await BrowserMultiFormatReader.listVideoInputDevices()] yields:
      [None] when the promise rejects, else the [deviceId]s in order *)
  videoInputDevices : option (list string);
  (** whether the stream request made by [decodeFromVideoDevice] is granted;
      the promise that call returns rejects when it is not *)
  streamGranted : bool
}.

(** The component together with what it acts on. *)
Record World : Type := mkWorld {
  ui : State;
  localStorage : option (list Item);   (* the slot 'items'; [None]: never written *)
  barcodeInput : string;               (* value of the hidden wedge input *)
  camera : Camera;
  sessions : list Session;             (* decode loops that were started and not stopped *)
  log : list Effect;                   (* oldest first *)
  engine : Js.Engine                   (* the engine the page runs on *)
}.

(* ------------------------------------------------------------------ *)
(** ** Field updates *)

Definition set_items (v : list Item) (s : State) : State :=
  mkState v (filteredItems s) (loading s) (error s) (editItem s)
          (isDialogOpen s) (snackbar s) (search s) (isScannerOpen s).
Definition set_filteredItems (v : list Item) (s : State) : State :=
  mkState (items s) v (loading s) (error s) (editItem s)
          (isDialogOpen s) (snackbar s) (search s) (isScannerOpen s).
Definition set_loading (v : bool) (s : State) : State :=
  mkState (items s) (filteredItems s) v (error s) (editItem s)
          (isDialogOpen s) (snackbar s) (search s) (isScannerOpen s).
Definition set_editItem (v : option Item) (s : State) : State :=
  mkState (items s) (filteredItems s) (loading s) (error s) v
          (isDialogOpen s) (snackbar s) (search s) (isScannerOpen s).
Definition set_isDialogOpen (v : bool) (s : State) : State :=
  mkState (items s) (filteredItems s) (loading s) (error s) (editItem s)
          v (snackbar s) (search s) (isScannerOpen s).
Definition set_snackbar (v : SnackbarState) (s : State) : State :=
  mkState (items s) (filteredItems s) (loading s) (error s) (editItem s)
          (isDialogOpen s) v (search s) (isScannerOpen s).
Definition set_search (v : string) (s : State) : State :=
  mkState (items s) (filteredItems s) (loading s) (error s) (editItem s)
          (isDialogOpen s) (snackbar s) v (isScannerOpen s).
Definition set_isScannerOpen (v : bool) (s : State) : State :=
  mkState (items s) (filteredItems s) (loading s) (error s) (editItem s)
          (isDialogOpen s) (snackbar s) (search s) v.

Definition set_ui (v : State) (w : World) : World :=
  mkWorld v (localStorage w) (barcodeInput w) (camera w) (sessions w) (log w) (engine w).
Definition set_localStorage (v : option (list Item)) (w : World) : World :=
  mkWorld (ui w) v (barcodeInput w) (camera w) (sessions w) (log w) (engine w).
Definition set_barcodeInput (v : string) (w : World) : World :=
  mkWorld (ui w) (localStorage w) v (camera w) (sessions w) (log w) (engine w).
Definition set_camera (v : Camera) (w : World) : World :=
  mkWorld (ui w) (localStorage w) (barcodeInput w) v (sessions w) (log w) (engine w).
Definition set_sessions (v : list Session) (w : World) : World :=
  mkWorld (ui w) (localStorage w) (barcodeInput w) (camera w) v (log w) (engine w).
Definition set_log (v : list Effect) (w : World) : World :=
  mkWorld (ui w) (localStorage w) (barcodeInput w) (camera w) (sessions w) v (engine w).

(* ------------------------------------------------------------------ *)
(** ** Handlers as state transformers *)

Definition M (A : Type) : Type := World -> A * World.

Definition ret {A : Type} (a : A) : M A := fun w => (a, w).

Definition bind {A B : Type} (m : M A) (k : A -> M B) : M B :=
  fun w => let (a, w') := m w in k a w'.

Notation "x <- m ;; k" := (bind m (fun x => k))
  (at level 61, m at next level, right associativity).
Notation "m ;; k" := (bind m (fun _ => k))
  (at level 61, right associativity).

(** The world a handler leaves behind. *)
Definition exec {A : Type} (m : M A) (w : World) : World := snd (m w).

Definition getState : M State := fun w => (ui w, w).
Definition getEngine : M Js.Engine := fun w => (engine w, w).
Definition getBarcodeInput : M string := fun w => (barcodeInput w, w).
Definition setBarcodeInput (v : string) : M unit :=
  fun w => (tt, set_barcodeInput v w).
Definition modify (f : State -> State) : M unit :=
  fun w => (tt, set_ui (f (ui w)) w).
Definition emit (e : Effect) : M unit :=
  fun w => (tt, set_log (log w ++ [e]) w).

Definition setItems v := modify (set_items v).
Definition setFilteredItems v := modify (set_filteredItems v).
Definition setLoading v := modify (set_loading v).
Definition setEditItem v := modify (set_editItem v).
Definition setIsDialogOpen v := modify (set_isDialogOpen v).
Definition setSearch v := modify (set_search v).
Definition setIsScannerOpen v := modify (set_isScannerOpen v).
(** [setSnackbar] is the component's notification channel. *)
Definition setSnackbar (v : SnackbarState) : M unit :=
  modify (set_snackbar v) ;; emit (Notify v).

(* ------------------------------------------------------------------ *)
(** ** The item store: [api] *)

(** Each function of [api] first records its call in the log; the record is
    the model's own and serves to say which calls a handler made. *)
Module api.

(** [JSON.parse(localStorage.getItem('items') || '[]')]. *)
Definition stored (w : World) : list Item :=
  match localStorage w with
  | Some l => l
  | None => []
  end.

Definition getItems : M (list Item) := fun w => (stored w, w).

(** [localStorage.setItem('items', JSON.stringify(l))]. *)
Definition writeItems (l : list Item) : M unit :=
  fun w => (tt, set_localStorage (Some l) w).

(** [{ ...item, id: Date.now() }], [now] being the clock reading. *)
Definition withId (now : Z) (item : NewItem) : Item :=
  mkItem now (new_name item) (new_quantity item) (new_barcode item).

Definition addItem (now : Z) (item : NewItem) : M Item :=
  emit (CallAddItem item) ;;
  items <- getItems ;;
  let newItem := withId now item in
  writeItems (items ++ [newItem]) ;;
  ret newItem.

Definition updateItem (item : Item) : M Item :=
  emit (CallUpdateItem item) ;;
  items <- getItems ;;
  let updatedItems := map (fun i => if (id i =? id item)%Z then item else i) items in
  writeItems updatedItems ;;
  ret item.

Definition deleteItem (i : Z) : M unit :=
  emit (CallDeleteItem i) ;;
  items <- getItems ;;
  let updatedItems := filter (fun x => negb (id x =? i)%Z) items in
  writeItems updatedItems.

End api.

(* ------------------------------------------------------------------ *)
(** ** The component: [InventoryApp] *)

(** [loadInventory].  While [loading] is set the component renders only
    'Cargando...': the hidden wedge input leaves the page, and it is empty when
    it comes back.  The [catch] clause, which sets [error], is for a slot that
    cannot be read, which the model does not have. *)
Definition loadInventory : M unit :=
  setLoading true ;;
  setBarcodeInput "" ;;
  items <- api.getItems ;;
  setItems items ;;
  setLoading false.

(** The predicate of [filterInventory]:
    [item.name.toLowerCase().includes(search.toLowerCase()) ||
     (item.barcode && item.barcode.includes(search))]. *)
Definition matchesSearch (e : Js.Engine) (search : string) (item : Item) : bool :=
  Js.includes (Js.toLowerCase e (name item)) (Js.toLowerCase e search) ||
  match barcode item with
  | Some b => Js.truthy b && Js.includes b search
  | None => false
  end.

Definition filterInventory : M unit :=
  e <- getEngine ;;
  st <- getState ;;
  let filteredItems := filter (matchesSearch e (search st)) (items st) in
  setFilteredItems filteredItems.

(** [item.barcode === code]. *)
Definition barcodeIs (code : string) (item : Item) : bool :=
  match barcode item with
  | Some b => String.eqb b code
  | None => false
  end.

(** The form shown for a bar code no item carries. *)
Definition blankItem (code : string) : Item :=
  mkItem 0 "" (Js.Num 1) (Some code).

(** [handleBarcodeDetected].  [items] is the state value of the render that
    built the closure, passed here explicitly. *)
Definition handleBarcodeDetected (items : list Item) (code : string) : M unit :=
  match find (barcodeIs code) items with
  | Some item => setEditItem (Some item)
  | None => setEditItem (Some (blankItem code))
  end ;;
  setIsDialogOpen true.

(** [editItem && editItem.id]: the test that chooses between the titles
    'Editar' and 'Agregar', the button labels, and update and create. *)
Definition editing (e : option Item) : bool :=
  match e with
  | Some item => Js.truthyZ (id item)
  | None => false
  end.

(** [{ ...editItem, name, quantity, barcode }]. *)
Definition edited (e : Item) (f : FormData) : Item :=
  mkItem (id e) (form_name f) (form_quantity f) (Some (form_barcode f)).

Definition created (f : FormData) : NewItem :=
  mkNewItem (form_name f) (form_quantity f) (Some (form_barcode f)).

Definition handleSubmit (formData : FormData) (now : Z) : M unit :=
  let name := form_name formData in
  let quantity := form_quantity formData in
  if Js.truthy name && Js.gt0 quantity then
    st <- getState ;;
    let update e :=
      api.updateItem (edited e formData) ;;
      setSnackbar (mkSnackbar true "Item actualizado" success) in
    let create :=
      api.addItem now (created formData) ;;
      setSnackbar (mkSnackbar true "Item creado" success) in
    match editItem st with                      (* [editItem && editItem.id] *)
    | Some e => if Js.truthyZ (id e) then update e else create
    | None => create
    end ;;
    loadInventory ;;
    setIsDialogOpen false
  else ret tt.

Definition deleteItem (i : Z) : M unit :=
  api.deleteItem i ;;
  loadInventory ;;
  setSnackbar (mkSnackbar true "Item eliminado" success).




(* ------------------------------------------------------------------ *)
(** ** The camera scanner *)

(** [videoRef.current]: the [<video>] element is in the page when the overlay
    is rendered, which the early returns on [loading] and [error] prevent. *)
Definition videoMounted (st : State) : bool :=
  isScannerOpen st && negb (loading st) &&
  match error st with
  | None => true
  | Some _ => false
  end.

Definition scannerStartMessage : string :=
  "Error al iniciar el escáner. Asegúrate de que tu dispositivo tiene una cámara y has dado los permisos necesarios.".

(** The [catch] clause of [initScanner]. *)
Definition scannerStartFailed : M unit :=
  emit ConsoleError ;;
  setSnackbar (mkSnackbar true scannerStartMessage error_).

(** [codeReaderRef.current.decodeFromVideoDevice(id, video, callback)], a call
    the source does not [await]: when the stream is granted a decode loop runs
    from then on, and when it is not the returned promise rejects outside the
    [try] block.  [items] is the list the callback closes over. *)
Definition decodeFromVideoDevice (items : list Item) : M unit :=
  fun w =>
    if streamGranted (camera w)
    then (tt, set_sessions (sessions w ++ [mkSession items]) w)
    else emit UnhandledRejection w.

(** [initScanner], [items] again being the state value of its render. *)
Definition initScanner (items : list Item) : M unit :=
  st <- getState ;;
  if videoMounted st then
    fun w =>
      match videoInputDevices (camera w) with
      | None => scannerStartFailed w                    (* the [await] throws *)
      | Some [] => scannerStartFailed w                 (* [videoInputDevices[0].deviceId] throws *)
      | Some (selectedDeviceId :: _) => decodeFromVideoDevice items w
      end
  else ret tt.

(** What the decode loop hands to its callback: a [result], or an [err] that is
    or is not an [Error] instance. *)
Inductive Decoded : Type :=
| DecodedText (text : string)
| DecodeErr (instanceofError : bool).

(** The callback given to [decodeFromVideoDevice]. *)
Definition decodeCallback (items : list Item) (d : Decoded) : M unit :=
  match d with
  | DecodedText text =>
      handleBarcodeDetected items text ;;
      setIsScannerOpen false
  | DecodeErr instanceofError =>
      if instanceofError then ret tt else emit ConsoleError
  end.

(** [useEffect(..., [isScannerOpen])]: runs when the flag differs from its value
    at the previous render; its cleanup function has an empty body. *)
Definition scannerEffect (before : bool) : M unit :=
  st <- getState ;;
  if Bool.eqb before (isScannerOpen st) then ret tt
  else if isScannerOpen st then initScanner (items st)
  else ret tt.

(* ------------------------------------------------------------------ *)
(** ** Events *)

Inductive Key : Type :=
| Enter
| Char (c : ascii).

(** [onKeyDown] of the hidden wedge input.  For a character key the handler
    does nothing and the browser appends the character to the value. *)
Definition onKeyDown (k : Key) : M unit :=
  match k with
  | Enter =>
      st <- getState ;;
      value <- getBarcodeInput ;;
      handleBarcodeDetected (items st) value ;;
      setBarcodeInput ""
  | Char c =>
      value <- getBarcodeInput ;;
      setBarcodeInput (value ++ String c "")
  end.

Inductive Event : Type :=
| ClickAgregar
| ClickEditar (row : nat)
| ClickEliminar (row : nat)
| ClickCancelar
| SubmitForm (formData : FormData) (now : Z)   (* the submit event, as [handleSubmit] receives it *)
| ChangeSearch (text : string)
| WedgeKey (k : Key)
| ClickEscanear
| ClickCerrar
| CameraDecoded (session : nat) (d : Decoded)
| CameraChanged (c : Camera).

(** The handler each event reaches.  Row buttons exist for the rows of
    [filteredItems], the form while the dialog is open, and a decode callback
    for each running session. *)
Definition dispatch (ev : Event) : M unit :=
  match ev with
  | ClickAgregar => setIsDialogOpen true ;; setEditItem None
  | ClickEditar row =>
      st <- getState ;;
      match nth_error (filteredItems st) row with
      | Some item => setEditItem (Some item) ;; setIsDialogOpen true
      | None => ret tt
      end
  | ClickEliminar row =>
      st <- getState ;;
      match nth_error (filteredItems st) row with
      | Some item => deleteItem (id item)
      | None => ret tt
      end
  | ClickCancelar => setIsDialogOpen false
  | SubmitForm formData now =>
      st <- getState ;;
      if isDialogOpen st then handleSubmit formData now else ret tt
  | ChangeSearch text => setSearch text
  | WedgeKey k => onKeyDown k
  | ClickEscanear => setIsScannerOpen true
  | ClickCerrar => setIsScannerOpen false
  | CameraDecoded session d =>
      fun w =>
        match nth_error (sessions w) session with
        | Some s => decodeCallback (captured_items s) d w
        | None => (tt, w)
        end
  | CameraChanged c => fun w => (tt, set_camera c w)
  end.

(** One event: its handler, then the effects of the render it causes, in the
    order the component declares them. *)
Definition step (ev : Event) (w : World) : World :=
  exec (dispatch ev ;; filterInventory ;; scannerEffect (isScannerOpen (ui w))) w.

Fixpoint run (evs : list Event) (w : World) : World :=
  match evs with
  | [] => w
  | ev :: evs' => run evs' (step ev w)
  end.

(** The first render with its state initialisers. *)
Definition initialState : State :=
  mkState [] [] true None None false (mkSnackbar false "" success) "" false.

(** The page once mounted: [loadInventory] and [filterInventory] have run. *)
Definition mount (e : Js.Engine) (slot : option (list Item)) (c : Camera) : World :=
  exec (loadInventory ;; filterInventory)
       (mkWorld initialState slot "" c [] [] e).

(* ------------------------------------------------------------------ *)
(** ** Lists: subsequences and selections *)

Section SelectionDefs.
Context {A : Type}.

(** [Subseq r l]: [r] is [l] with some elements left out, the others in
    their original order. *)
Inductive Subseq : list A -> list A -> Prop :=
| Subseq_nil : Subseq [] []
| Subseq_skip x r l : Subseq r l -> Subseq r (x :: l)
| Subseq_keep x r l : Subseq r l -> Subseq (x :: r) (x :: l).

(** [Kept P l r]: [r] is [l] with exactly the elements satisfying [P] kept,
    each occurrence once and in its original position relative to the rest. *)
Inductive Kept (P : A -> Prop) : list A -> list A -> Prop :=
| Kept_nil : Kept P [] []
| Kept_keep x l r : P x -> Kept P l r -> Kept P (x :: l) (x :: r)
| Kept_drop x l r : ~ P x -> Kept P l r -> Kept P (x :: l) r.

End SelectionDefs.

(* ------------------------------------------------------------------ *)
(** ** Strings: occurrence, with and without case *)

Local Open Scope string_scope.

(** [q] occurs in [s] as a contiguous run of characters. *)
Definition occursIn (q s : string) : Prop :=
  exists pre post, s = pre ++ q ++ post.

(** The capital and the small letter at place [n] of the alphabet, A and a
    being at place 0. *)
Definition capital (n : nat) : ascii := ascii_of_nat (65 + n).
Definition small (n : nat) : ascii := ascii_of_nat (97 + n).

(** Two characters that are the same letter, case put aside: the same
    character, or the capital and the small form of one of the 26 letters. *)
Definition sameLetter (c d : ascii) : Prop :=
  c = d \/
  exists n, (n < 26)%nat /\
            ((c = capital n /\ d = small n) \/ (c = small n /\ d = capital n)).

(** Two strings that read the same character by character, case put aside. *)
Inductive sameIgnoringCase : string -> string -> Prop :=
| sic_empty : sameIgnoringCase "" ""
| sic_char c d s t :
    sameLetter c d -> sameIgnoringCase s t ->
    sameIgnoringCase (String c s) (String d t).

(** [q] occurs in [s] when case is put aside. *)
Definition occursIgnoringCase (q s : string) : Prop :=
  exists pre mid post, s = pre ++ mid ++ post /\ sameIgnoringCase mid q.

(** The items the search box asks for, in the words of the specification: the
    name contains the query case-insensitively, or the bar code contains it
    as it is written. *)
Definition Matches (query : string) (item : Item) : Prop :=
  occursIgnoringCase query (name item) \/
  exists b, barcode item = Some b /\ occursIn query b.

(** The items the search box asks for, in the terms of the code: the name in
    lower case contains the query in lower case, or the bar code contains the
    query as it is written. *)
Definition MatchesLowered (e : Js.Engine) (query : string) (item : Item) : Prop :=
  occursIn (Js.toLowerCase e query) (Js.toLowerCase e (name item)) \/
  exists b, barcode item = Some b /\ occursIn query b.

(** Items whose names are text of the ASCII range. *)
Definition asciiNames (l : list Item) : Prop :=
  Forall (fun x => Js.isAscii (name x) = true) l.

Local Open Scope list_scope.

(* ------------------------------------------------------------------ *)
(** ** Notions the properties are stated with *)

(** The two faces of the dialog, chosen by [editItem && editItem.id]. *)
Inductive DialogMode : Type := EditMode | CreateMode.

Definition dialogMode (st : State) : DialogMode :=
  if editing (editItem st) then EditMode else CreateMode.

(** A number greater than zero. *)
Definition positive (n : Js.number) : Prop :=
  exists q, n = Js.Num q /\ (0 < q)%Q.

(** A number that is one of 1, 2, 3, ... *)
Definition positiveInteger (n : Js.number) : Prop :=
  exists q z, n = Js.Num q /\ (q == inject_Z z)%Q /\ (0 < z)%Z.

(** The replacement [api.updateItem] maps over the list. *)
Definition replaceById (item : Item) (l : list Item) : list Item :=
  map (fun i => if (id i =? id item)%Z then item else i) l.

(** The store driven by a sequence of calls on [api]. *)
Inductive StoreOp : Type :=
| OpCreate (now : Z) (item : NewItem)
| OpUpdate (item : Item)
| OpDelete (i : Z).

Definition applyOp (op : StoreOp) : M unit :=
  match op with
  | OpCreate now item => api.addItem now item ;; ret tt
  | OpUpdate item => api.updateItem item ;; ret tt
  | OpDelete i => api.deleteItem i
  end.

Fixpoint applyOps (ops : list StoreOp) (w : World) : World :=
  match ops with
  | [] => w
  | op :: ops' => applyOps ops' (exec (applyOp op) w)
  end.

(** The clock readings taken by the creations of a sequence, in order. *)
Fixpoint creationTimes (ops : list StoreOp) : list Z :=
  match ops with
  | [] => []
  | OpCreate now _ :: ops' => now :: creationTimes ops'
  | _ :: ops' => creationTimes ops'
  end.

(** A handler that stops no decode loop: the sessions running before it are
    still running after it, in the same order, new ones coming after them. *)
Definition keepsSessions {A : Type} (m : M A) : Prop :=
  forall w, exists started, sessions (snd (m w)) = sessions w ++ started.

(** Ids that [Date.now()] can have produced: any but the placeholder's 0. *)
Definition realIds (l : list Item) : Prop := Forall (fun x => id x <> 0%Z) l.

(** Every item the page knows of (stored, loaded, shown, or captured by a
    decode session) carries a real id. *)
Definition wellFormed (w : World) : Prop :=
  realIds (api.stored w) /\
  realIds (items (ui w)) /\
  realIds (filteredItems (ui w)) /\
  Forall (fun s => realIds (captured_items s)) (sessions w).

(** The clock never reads 0 when a form is submitted. *)
Definition clockRunning (ev : Event) : Prop :=
  match ev with
  | SubmitForm _ now => now <> 0%Z
  | _ => True
  end.

(** The clock readings at which forms are submitted, in order. *)
Fixpoint submitTimes (evs : list Event) : list Z :=
  match evs with
  | [] => []
  | SubmitForm _ now :: evs' => now :: submitTimes evs'
  | _ :: evs' => submitTimes evs'
  end.

(** The list [api.deleteItem] writes back. *)
Definition removeById (i : Z) (l : list Item) : list Item :=
  filter (fun x => negb (id x =? i)%Z) l.

(** The page agrees with the store: the list in memory is the stored one, the
    rows shown are its filter by the search text, and neither the loading
    screen nor the error screen hides the page. *)
Definition inSync (w : World) : Prop :=
  items (ui w) = api.stored w /\
  filteredItems (ui w) =
    filter (matchesSearch (engine w) (search (ui w))) (items (ui w)) /\
  loading (ui w) = false /\
  error (ui w) = None.

(** What resolution puts in the dialog for [code], given the list searched. *)
Definition resolved (its : list Item) (code : string) : Item :=
  match find (barcodeIs code) its with
  | Some item => item
  | None => blankItem code
  end.

(** The key strokes a wedge scanner sends for [code], Enter not included. *)
Fixpoint typed (code : string) : list Event :=
  match code with
  | EmptyString => []
  | String c rest => WedgeKey (Char c) :: typed rest
  end.

(** [n] times: open the scanner, close it with its button. *)
Fixpoint openClose (n : nat) : list Event :=
  match n with
  | O => []
  | S n' => ClickEscanear :: ClickCerrar :: openClose n'
  end.

(** The events whose handlers call a writing function of [api]. *)
Definition writesStore (ev : Event) : bool :=
  match ev with
  | SubmitForm _ _ | ClickEliminar _ => true
  | _ => false
  end.

(* ------------------------------------------------------------------ *)
(** ** The earlier revision of the component *)

(** The first listing of the file is the component before bar codes: its [api],
    [loadInventory] and [deleteItem] read as above, and its submit handler is
    the one below.  It is run on the same state, of which it uses the cells it
    declares. *)
Module Rev1.

(** [{ ...editItem, name, quantity }]: every other field of the target is kept. *)
Definition edited (e : Item) (f : FormData) : Item :=
  mkItem (id e) (form_name f) (form_quantity f) (barcode e).

(** [{ name, quantity }]. *)
Definition created (f : FormData) : NewItem :=
  mkNewItem (form_name f) (form_quantity f) None.

Definition handleSubmit (formData : FormData) (now : Z) : M unit :=
  let name := form_name formData in
  let quantity := form_quantity formData in
  if Js.truthy name && Js.gt0 quantity then
    st <- getState ;;
    match editItem st with                      (* [if (editItem)] *)
    | Some e =>
        api.updateItem (edited e formData) ;;
        setSnackbar (mkSnackbar true "Item actualizado" success)
    | None =>
        api.addItem now (created formData) ;;
        setSnackbar (mkSnackbar true "Item creado" success)
    end ;;
    loadInventory ;;
    setIsDialogOpen false
  else ret tt.

End Rev1.

(** An item without its bar code. *)
Definition withoutBarcode (x : Item) : Z * string * Js.number :=
  (id x, name x, quantity x).

(* ------------------------------------------------------------------ *)
(** ** Facts about subsequences and selections *)

Section Selection.
Context {A : Type}.

Lemma Subseq_refl (l : list A) : Subseq l l.
Proof. induction l; constructor; assumption. Qed.

Lemma Subseq_nil_l (l : list A) : Subseq [] l.
Proof. induction l; constructor; assumption. Qed.

Lemma Subseq_app_tail (r l t : list A) : Subseq r l -> Subseq (r ++ t) (l ++ t).
Proof.
  induction 1; simpl.
  - apply Subseq_refl.
  - constructor; assumption.
  - constructor; assumption.
Qed.

Lemma Subseq_trans (a b c : list A) : Subseq a b -> Subseq b c -> Subseq a c.
Proof.
  intros Hab Hbc. revert a Hab.
  induction Hbc as [| x b c _ IH | x b c _ IH]; intros a Hab.
  - assumption.
  - constructor. apply IH, Hab.
  - inversion Hab; subst.
    + apply Subseq_skip, IH. assumption.
    + apply Subseq_keep, IH. assumption.
Qed.

Lemma Kept_Subseq (P : A -> Prop) (l r : list A) : Kept P l r -> Subseq r l.
Proof. induction 1; constructor; assumption. Qed.

Lemma Kept_In (P : A -> Prop) (l r : list A) :
  Kept P l r -> forall x, In x r <-> In x l /\ P x.
Proof.
  induction 1 as [| y l r Hy _ IH | y l r Hy _ IH]; intros x; simpl.
  - tauto.
  - rewrite IH. split.
    + intros [-> | [Hin Hp]]; auto.
    + intros [[-> | Hin] Hp]; auto.
  - rewrite IH. split.
    + intros [Hin Hp]; auto.
    + intros [[-> | Hin] Hp]; [contradiction | auto].
Qed.

(** A selection is determined by the list and the property. *)
Lemma Kept_unique (P : A -> Prop) (l r r' : list A) :
  Kept P l r -> Kept P l r' -> r = r'.
Proof.
  intros H. revert r'.
  induction H as [| y l r Hy _ IH | y l r Hy _ IH]; intros r' H';
    inversion H'; subst; try contradiction; try reflexivity.
  - f_equal. apply IH. assumption.
  - apply IH. assumption.
Qed.

(** [Array.prototype.filter] keeps what its predicate accepts. *)
Lemma filter_Kept (f : A -> bool) (P : A -> Prop) :
  (forall x, f x = true <-> P x) ->
  forall l, Kept P l (filter f l).
Proof.
  intros Hf. induction l as [| x l IH]; simpl.
  - constructor.
  - destruct (f x) eqn:E.
    + apply Kept_keep; [apply Hf, E | exact IH].
    + apply Kept_drop; [| exact IH].
      intros Hp. apply Hf in Hp. congruence.
Qed.

Lemma filter_Kept_in (f : A -> bool) (P : A -> Prop) (l : list A) :
  (forall x, In x l -> (f x = true <-> P x)) -> Kept P l (filter f l).
Proof.
  induction l as [| x l IH]; simpl; intros Hf.
  - constructor.
  - assert (IH' : Kept P l (filter f l)).
    { apply IH. intros y Hy. apply Hf. right. exact Hy. }
    destruct (f x) eqn:E.
    + apply Kept_keep; [apply (Hf x (or_introl eq_refl)), E | exact IH'].
    + apply Kept_drop; [| exact IH'].
      intros Hp. apply (Hf x (or_introl eq_refl)) in Hp. congruence.
Qed.

Lemma filter_all (f : A -> bool) (l : list A) :
  (forall x, In x l -> f x = true) -> filter f l = l.
Proof.
  induction l as [| x l IH]; simpl; intros H.
  - reflexivity.
  - rewrite (H x (or_introl eq_refl)). f_equal. apply IH.
    intros y Hy. apply H. right. exact Hy.
Qed.

End Selection.

(* ------------------------------------------------------------------ *)
(** ** Facts about the string primitives *)

Local Open Scope string_scope.

Lemma startsWith_spec (s q : string) :
  Js.startsWith s q = true <-> exists post, s = q ++ post.
Proof.
  revert s. induction q as [| b q IH]; intros s; simpl.
  - split; [intros _; exists s; reflexivity | intros _; reflexivity].
  - destruct s as [| a s].
    + split; [discriminate | intros [post H]; discriminate].
    + rewrite andb_true_iff, IH. split.
      * intros [Hab [post ->]]. apply Ascii.eqb_eq in Hab. subst.
        exists post. reflexivity.
      * intros [post H]. injection H as -> ->. split.
        -- apply Ascii.eqb_refl.
        -- exists post. reflexivity.
Qed.

Lemma includes_spec (s q : string) :
  Js.includes s q = true <-> occursIn q s.
Proof.
  unfold occursIn. induction s as [| a s IH].
  - simpl. rewrite orb_false_r, startsWith_spec. split.
    + intros [post H]. exists "", post. exact H.
    + intros [pre [post H]]. destruct pre; [exists post; exact H | discriminate].
  - cbn [Js.includes]. rewrite orb_true_iff, startsWith_spec, IH. split.
    + intros [[post H] | [pre [post H]]].
      * exists "", post. exact H.
      * exists (String a pre), post. simpl. rewrite H. reflexivity.
    + intros [pre [post H]]. destruct pre as [| c pre].
      * left. exists post. exact H.
      * right. injection H as _ H. exists pre, post. exact H.
Qed.

Lemma includes_empty (s : string) : Js.includes s "" = true.
Proof. destruct s; reflexivity. Qed.

Lemma asciiLower_app (s t : string) :
  Js.asciiLower (s ++ t) = Js.asciiLower s ++ Js.asciiLower t.
Proof. induction s as [| c s IH]; simpl; [reflexivity | rewrite IH; reflexivity]. Qed.

(** [asciiLower] works character by character, so a cut of the result is the
    image of a cut of the argument. *)
Lemma asciiLower_split (s a b : string) :
  Js.asciiLower s = a ++ b ->
  exists s1 s2, s = s1 ++ s2 /\ Js.asciiLower s1 = a /\ Js.asciiLower s2 = b.
Proof.
  revert s. induction a as [| c a IH]; intros s H; simpl in H.
  - exists "", s. auto.
  - destruct s as [| d s]; [discriminate |].
    simpl in H. injection H as Hc H.
    destruct (IH s H) as [s1 [s2 [-> [H1 H2]]]].
    exists (String d s1), s2. simpl. rewrite Hc, H1. auto.
Qed.

Lemma isAscii_app (s t : string) :
  Js.isAscii (s ++ t) = Js.isAscii s && Js.isAscii t.
Proof.
  induction s as [| c s IH]; simpl; [reflexivity |].
  destruct c as [b0 b1 b2 b3 b4 b5 b6 b7]. rewrite IH, andb_assoc. reflexivity.
Qed.

Lemma isAscii_occursIn (q s : string) :
  occursIn q s -> Js.isAscii s = true -> Js.isAscii q = true.
Proof.
  intros [pre [post ->]] H. rewrite !isAscii_app in H.
  apply andb_true_iff in H. destruct H as [_ H].
  apply andb_true_iff in H. tauto.
Qed.

Lemma toLowerCase_empty (e : Js.Engine) : Js.toLowerCase e "" = "".
Proof. apply (Js.toLowerCase_ascii e ""). reflexivity. Qed.

(** Letters paired by [sameLetter] are the characters that [lowerChar] sends
    to one character. *)
Lemma lowerChar_capital (n : nat) :
  (n < 26)%nat -> Js.lowerChar (capital n) = small n.
Proof.
  intros H. do 26 (destruct n as [| n]; [reflexivity |]). lia.
Qed.

Lemma lowerChar_small (n : nat) :
  (n < 26)%nat -> Js.lowerChar (small n) = small n.
Proof.
  intros H. do 26 (destruct n as [| n]; [reflexivity |]). lia.
Qed.

Lemma sameLetter_iff (c d : ascii) :
  sameLetter c d <-> Js.lowerChar c = Js.lowerChar d.
Proof.
  split.
  - intros [-> | [n [Hn [[-> ->] | [-> ->]]]]]; [reflexivity | |];
      rewrite lowerChar_capital, lowerChar_small by exact Hn; reflexivity.
  - unfold Js.lowerChar. cbv zeta.
    pose proof (nat_ascii_bounded c) as Bc. pose proof (nat_ascii_bounded d) as Bd.
    pose proof (ascii_nat_embedding c) as Ec. pose proof (ascii_nat_embedding d) as Ed.
    destruct ((65 <=? nat_of_ascii c)%nat && (nat_of_ascii c <=? 90)%nat) eqn:Uc;
    destruct ((65 <=? nat_of_ascii d)%nat && (nat_of_ascii d <=? 90)%nat) eqn:Ud;
      intros H.
    + left. rewrite <- Ec, <- Ed. f_equal.
      apply andb_true_iff in Uc, Ud. destruct Uc as [_ Uc], Ud as [_ Ud].
      apply Nat.leb_le in Uc, Ud.
      apply (f_equal nat_of_ascii) in H.
      rewrite !nat_ascii_embedding in H by lia. lia.
    + right. apply andb_true_iff in Uc. destruct Uc as [U1 U2].
      apply Nat.leb_le in U1, U2.
      exists (nat_of_ascii c - 65)%nat. split; [lia |]. left.
      unfold capital, small. split.
      * rewrite <- Ec at 1. f_equal. lia.
      * rewrite <- H. f_equal. lia.
    + right. apply andb_true_iff in Ud. destruct Ud as [U1 U2].
      apply Nat.leb_le in U1, U2.
      exists (nat_of_ascii d - 65)%nat. split; [lia |]. right.
      unfold capital, small. split.
      * rewrite H. f_equal. lia.
      * rewrite <- Ed at 1. f_equal. lia.
    + left. exact H.
Qed.

Lemma sameIgnoringCase_iff (s t : string) :
  sameIgnoringCase s t <-> Js.asciiLower s = Js.asciiLower t.
Proof.
  split.
  - induction 1 as [| c d s t Hcd _ IH]; simpl; [reflexivity |].
    apply sameLetter_iff in Hcd. rewrite Hcd, IH. reflexivity.
  - revert t. induction s as [| c s IH]; intros [| d t] H; simpl in H;
      try discriminate.
    + constructor.
    + injection H as Hc H. constructor; [apply sameLetter_iff, Hc | apply IH, H].
Qed.

(** On ASCII text the name test of the source decides case-insensitive
    occurrence. *)
Lemma includes_lower_spec (s q : string) :
  Js.includes (Js.asciiLower s) (Js.asciiLower q) = true <->
  occursIgnoringCase q s.
Proof.
  rewrite includes_spec. unfold occursIn, occursIgnoringCase. split.
  - intros [pre [post H]].
    apply asciiLower_split in H. destruct H as [s1 [s2 [-> [H1 H2]]]].
    apply asciiLower_split in H2. destruct H2 as [m [s3 [-> [Hm H3]]]].
    exists s1, m, s3. split; [reflexivity | apply sameIgnoringCase_iff, Hm].
  - intros [pre [mid [post [-> H]]]]. apply sameIgnoringCase_iff in H.
    exists (Js.asciiLower pre), (Js.asciiLower post).
    rewrite !asciiLower_app, H. reflexivity.
Qed.

(** The test of the source, read as a proposition. *)
Lemma matchesSearch_spec (e : Js.Engine) (query : string) (item : Item) :
  matchesSearch e query item = true <-> MatchesLowered e query item.
Proof.
  unfold matchesSearch, MatchesLowered.
  rewrite orb_true_iff, includes_spec. split.
  - intros [H | H]; [left; exact H | right].
    destruct (barcode item) as [b |]; [| discriminate].
    apply andb_true_iff in H. destruct H as [_ H].
    exists b. split; [reflexivity | apply includes_spec, H].
  - intros [H | [b [Hb H]]]; [left; exact H |].
    rewrite Hb. destruct b as [| c b].
    + (* an empty bar code only contains the empty query, which every name contains *)
      left. destruct H as [pre [post H]].
      destruct pre; [| discriminate]. destruct query; [| discriminate].
      rewrite toLowerCase_empty. exists "", (Js.toLowerCase e (name item)).
      reflexivity.
    + right. cbn [Js.truthy andb]. apply includes_spec, H.
Qed.

(** On ASCII text the two readings of a match agree. *)
Lemma MatchesLowered_ascii (e : Js.Engine) (query : string) (item : Item) :
  Js.isAscii query = true -> Js.isAscii (name item) = true ->
  (MatchesLowered e query item <-> Matches query item).
Proof.
  intros Hq Hn. unfold MatchesLowered, Matches.
  rewrite (Js.toLowerCase_ascii e _ Hq), (Js.toLowerCase_ascii e _ Hn).
  rewrite <- includes_spec, includes_lower_spec. tauto.
Qed.

Lemma matchesSearch_ascii (e : Js.Engine) (query : string) (item : Item) :
  Js.isAscii query = true -> Js.isAscii (name item) = true ->
  (matchesSearch e query item = true <-> Matches query item).
Proof.
  intros Hq Hn. rewrite matchesSearch_spec. apply MatchesLowered_ascii; assumption.
Qed.

Lemma matchesSearch_empty (e : Js.Engine) (item : Item) :
  matchesSearch e "" item = true.
Proof.
  unfold matchesSearch. rewrite toLowerCase_empty, includes_empty. reflexivity.
Qed.

Local Open Scope list_scope.

(* ------------------------------------------------------------------ *)
(** ** Running handlers *)

Ltac unfold_handlers :=
  unfold exec, step, dispatch, handleSubmit, deleteItem, loadInventory,
    filterInventory, handleBarcodeDetected, onKeyDown, decodeCallback,
    scannerEffect, initScanner, decodeFromVideoDevice, scannerStartFailed,
    api.addItem, api.updateItem, api.deleteItem, api.getItems, api.writeItems,
    setSnackbar, setItems, setFilteredItems, setLoading, setEditItem,
    setIsDialogOpen, setSearch, setIsScannerOpen,
    getBarcodeInput, setBarcodeInput, modify, emit, getState, getEngine, bind,
    ret in *.

Lemma exec_bind {A B : Type} (m : M A) (k : A -> M B) (w : World) :
  exec (bind m k) w = exec (k (fst (m w))) (exec m w).
Proof. unfold exec, bind. destruct (m w); reflexivity. Qed.

Lemma stored_set_log (v : list Effect) (w : World) :
  api.stored (set_log v w) = api.stored w.
Proof. reflexivity. Qed.

Lemma gt0_spec (n : Js.number) : Js.gt0 n = true <-> positive n.
Proof.
  unfold positive. destruct n as [| q]; simpl.
  - split; [discriminate | intros [q [H _]]; discriminate].
  - rewrite negb_true_iff. split.
    + intros H. exists q. split; [reflexivity |].
      apply Qnot_le_lt. intros Hle. apply Qle_bool_iff in Hle. congruence.
    + intros [q' [Hq Hpos]]. injection Hq as <-.
      destruct (Qle_bool q 0) eqn:E; [| reflexivity].
      apply Qle_bool_iff in E. exfalso. apply (Qlt_not_le _ _ Hpos E).
Qed.

Lemma truthy_spec (s : string) : Js.truthy s = true <-> s <> "".
Proof. destruct s; simpl; split; congruence. Qed.

Lemma truthyZ_spec (z : Z) : Js.truthyZ z = true <-> z <> 0%Z.
Proof. unfold Js.truthyZ. rewrite negb_true_iff, Z.eqb_neq. tauto. Qed.


Lemma barcodeIs_spec (code : string) (item : Item) :
  barcodeIs code item = true <-> barcode item = Some code.
Proof.
  unfold barcodeIs. destruct (barcode item) as [b |].
  - rewrite String.eqb_eq. split; congruence.
  - split; discriminate.
Qed.

Lemma replaceById_absent (item : Item) (l : list Item) :
  (forall x, In x l -> id x <> id item) -> replaceById item l = l.
Proof.
  unfold replaceById. induction l as [| x l IH]; simpl; intros H.
  - reflexivity.
  - destruct (Z.eqb_spec (id x) (id item)) as [E | _].
    + exfalso. exact (H x (or_introl eq_refl) E).
    + f_equal. apply IH. intros y Hy. apply H. right. exact Hy.
Qed.

Lemma replaceById_ids (item : Item) (l : list Item) :
  map id (replaceById item l) = map id l.
Proof.
  unfold replaceById. induction l as [| x l IH]; simpl.
  - reflexivity.
  - rewrite IH. destruct (Z.eqb_spec (id x) (id item)) as [E | _];
      [rewrite E |]; reflexivity.
Qed.

(* ------------------------------------------------------------------ *)
(** ** The search filter *)

(** C2, as the code has it.  [filterInventory] shows exactly the items whose
    name, put in lower case by [toLowerCase], contains the query put in lower
    case, or whose bar code contains the query as written: every such item is
    kept and no other, each in its original place, so the result is a
    subsequence of the list.  When the query and the names are ASCII text this
    is to say that the name contains the query case-insensitively.  With the
    empty query the result is the whole list.  Nothing but [filteredItems]
    changes. *)
Theorem filterInventory_selects (w : World) :
  let shown := filteredItems (ui (exec filterInventory w)) in
  let query := search (ui w) in
  Kept (MatchesLowered (engine w) query) (items (ui w)) shown /\
  (forall r, Kept (MatchesLowered (engine w) query) (items (ui w)) r -> r = shown) /\
  Subseq shown (items (ui w)) /\
  (forall item, In item shown <->
                In item (items (ui w)) /\ MatchesLowered (engine w) query item) /\
  (Js.isAscii query = true -> asciiNames (items (ui w)) ->
   Kept (Matches query) (items (ui w)) shown /\
   (forall r, Kept (Matches query) (items (ui w)) r -> r = shown) /\
   (forall item, In item shown <-> In item (items (ui w)) /\ Matches query item)) /\
  (query = "" -> shown = items (ui w)) /\
  exec filterInventory w = set_ui (set_filteredItems shown (ui w)) w.
Proof.
  unfold_handlers. cbn.
  assert (K : Kept (MatchesLowered (engine w) (search (ui w))) (items (ui w))
                   (filter (matchesSearch (engine w) (search (ui w))) (items (ui w)))).
  { apply filter_Kept. intros x. apply matchesSearch_spec. }
  split; [exact K |].
  split; [intros r Hr; exact (Kept_unique _ _ _ _ Hr K) |].
  split; [exact (Kept_Subseq _ _ _ K) |].
  split; [exact (Kept_In _ _ _ K) |].
  split; [| split; [| reflexivity]].
  - intros Hq Hn.
    assert (K' : Kept (Matches (search (ui w))) (items (ui w))
                   (filter (matchesSearch (engine w) (search (ui w))) (items (ui w)))).
    { apply filter_Kept_in. intros x Hx. apply matchesSearch_ascii; [exact Hq |].
      unfold asciiNames in Hn. rewrite Forall_forall in Hn. exact (Hn x Hx). }
    split; [exact K' |].
    split; [intros r Hr; exact (Kept_unique _ _ _ _ Hr K') |].
    exact (Kept_In _ _ _ K').
  - intros ->. apply filter_all. intros x _. apply matchesSearch_empty.
Qed.

(** A search on ASCII text: the query ["tUe"] shows the two items whose names
    contain it in some mix of cases, and the item whose bar code holds ["779"]
    is found by the query ["77"]. *)
Lemma filterInventory_selects_witness :
  let a := mkItem 1700000000000 "Tuerca M8" (Js.Num 3) (Some "779") in
  let b := mkItem 1700000002000 "Perno" (Js.Num 5) (Some "12345") in
  let c := mkItem 1700000004000 "TUERCA ciega" (Js.Num 2) None in
  let w := mount Js.asciiEngine (Some [a; b; c]) (mkCamera None false) in
  let w1 := exec (setSearch "tUe") w in
  let w2 := exec (setSearch "77") w in
  filteredItems (ui (exec filterInventory w1)) = [a; c] /\
  filteredItems (ui (exec filterInventory w2)) = [a] /\
  Kept (Matches "tUe") [a; b; c] (filteredItems (ui (exec filterInventory w1))) /\
  Kept (Matches "77") [a; b; c] (filteredItems (ui (exec filterInventory w2))).
Proof.
  intros a b c w w1 w2.
  split; [reflexivity |]. split; [reflexivity |]. split.
  - pose proof (filterInventory_selects w1) as H. cbv zeta in H.
    destruct H as (_ & _ & _ & _ & H & _).
    apply H; [reflexivity | repeat constructor].
  - pose proof (filterInventory_selects w2) as H. cbv zeta in H.
    destruct H as (_ & _ & _ & _ & H & _).
    apply H; [reflexivity | repeat constructor].
Defined.

(** C2 as worded, by containment whatever the case, does not hold of every
    text.  [toLowerCase] writes a capital sigma that ends a word as the final
    sigma: the name ["ΑΣ"] becomes ["ας"] and the query ["Σ"] becomes ["σ"].
    The name contains the query as it is written, and the filter does not show
    the item. *)
Lemma filterInventory_misses_final_sigma :
  let a := mkItem 1700000000000 "ΑΣ" (Js.Num 1) None in
  let w := exec (setSearch "Σ")
                (mount Js.sigmaEngine (Some [a]) (mkCamera None false)) in
  let shown := filteredItems (ui (exec filterInventory w)) in
  items (ui w) = [a] /\
  search (ui w) = "Σ"%string /\
  occursIn "Σ" (name a) /\
  Matches "Σ" a /\
  shown = [] /\
  ~ Kept (Matches (search (ui w))) (items (ui w)) shown.
Proof.
  intros a w shown.
  assert (Ho : occursIn "Σ" (name a)) by (exists "Α"%string, ""%string; reflexivity).
  assert (Hm : Matches "Σ" a).
  { left. exists "Α"%string, "Σ"%string, ""%string.
    split; [reflexivity |]. repeat constructor. }
  split; [reflexivity |]. split; [reflexivity |].
  split; [exact Ho |]. split; [exact Hm |]. split; [reflexivity |].
  intros K. inversion K; subst. contradiction.
Qed.

(* ------------------------------------------------------------------ *)
(** ** The item store *)

(** C10.  [api.deleteItem] rewrites the store to exactly the items whose id
    differs from the given one: they stay in their order and are the very same
    records, and every item carrying the id—there may be several—is gone.
    The component's state is not touched. *)
Theorem deleteItem_removes (i : Z) (w : World) :
  let w' := exec (api.deleteItem i) w in
  Kept (fun x => id x <> i) (api.stored w) (api.stored w') /\
  (forall r, Kept (fun x => id x <> i) (api.stored w) r -> r = api.stored w') /\
  Subseq (api.stored w') (api.stored w) /\
  (forall x, In x (api.stored w') <-> In x (api.stored w) /\ id x <> i) /\
  (forall x, In x (api.stored w) -> id x = i -> ~ In x (api.stored w')) /\
  ui w' = ui w /\
  log w' = log w ++ [CallDeleteItem i].
Proof.
  unfold_handlers. cbn. rewrite !stored_set_log.
  assert (K : Kept (fun x => id x <> i) (api.stored w)
                   (filter (fun x => negb (id x =? i)%Z) (api.stored w))).
  { apply filter_Kept. intros x. rewrite negb_true_iff, Z.eqb_neq. tauto. }
  split; [exact K |].
  split; [intros r Hr; exact (Kept_unique _ _ _ _ Hr K) |].
  split; [exact (Kept_Subseq _ _ _ K) |].
  split; [exact (Kept_In _ _ _ K) |].
  split; [| split; reflexivity].
  intros x _ Hid Hin. apply (Kept_In _ _ _ K) in Hin. tauto.
Qed.

(** C6.  [api.updateItem] on an item whose id no stored item carries passes
    through: the stored list is the same afterwards (nothing is added, nothing
    is altered), the component's state is untouched, and the item given is the
    item returned. *)
Theorem updateItem_absent_id (item : Item) (w : World) :
  (forall x, In x (api.stored w) -> id x <> id item) ->
  fst (api.updateItem item w) = item /\
  api.stored (exec (api.updateItem item) w) = api.stored w /\
  localStorage (exec (api.updateItem item) w) = Some (api.stored w) /\
  ui (exec (api.updateItem item) w) = ui w.
Proof.
  intros Habsent. unfold_handlers. cbn. rewrite !stored_set_log.
  fold (replaceById item (api.stored w)).
  rewrite (replaceById_absent item _ Habsent). auto.
Qed.

Lemma updateItem_absent_id_witness :
  let w := mkWorld initialState (Some [mkItem 7 "Tuerca" (Js.Num 4) None]) ""
                   (mkCamera None false) [] [] Js.asciiEngine in
  let item := mkItem 8 "Perno" (Js.Num 2) (Some "779") in
  fst (api.updateItem item w) = item /\
  api.stored (exec (api.updateItem item) w) = api.stored w /\
  localStorage (exec (api.updateItem item) w) = Some (api.stored w) /\
  ui (exec (api.updateItem item) w) = ui w.
Proof.
  apply updateItem_absent_id.
  simpl. intros x [<- | []]. simpl. lia.
Defined.

(* ------------------------------------------------------------------ *)
(** ** Submitting the form *)

Lemma handleSubmit_guard (f : FormData) :
  Js.truthy (form_name f) && Js.gt0 (form_quantity f) = true <->
  form_name f <> "" /\ positive (form_quantity f).
Proof. rewrite andb_true_iff, truthy_spec, gt0_spec. tauto. Qed.

(** The guard of [handleSubmit] itself.  Unless the name it receives is
    non-empty and the quantity is a number greater than zero, the handler does
    nothing at all: no call on the store, no notification, the store and the
    whole state of the component (the open dialog included) are as before. *)
Theorem handleSubmit_invalid (f : FormData) (now : Z) (w : World) :
  ~ (form_name f <> "" /\ positive (form_quantity f)) ->
  handleSubmit f now w = (tt, w).
Proof.
  intros H. unfold handleSubmit.
  destruct (Js.truthy (form_name f) && Js.gt0 (form_quantity f)) eqn:E.
  - exfalso. apply H, handleSubmit_guard, E.
  - reflexivity.
Qed.

Lemma handleSubmit_invalid_witness :
  let w := step ClickAgregar (mount Js.asciiEngine None (mkCamera None false)) in
  handleSubmit (mkForm "" (Js.Num 3) "779") 1700000000000 w = (tt, w) /\
  handleSubmit (mkForm "Tuerca" (Js.Num 0) "779") 1700000000000 w = (tt, w) /\
  handleSubmit (mkForm "Tuerca" Js.NaN "779") 1700000000000 w = (tt, w).
Proof.
  cbv zeta. split; [| split]; apply handleSubmit_invalid.
  - intros [H _]. apply H. reflexivity.
  - intros [_ [q [E H]]]. injection E as <-. revert H. vm_compute. discriminate.
  - intros [_ [q [E _]]]. discriminate.
Defined.

Lemma not_integer_3_2 : ~ positiveInteger (Js.Num (3 # 2)).
Proof.
  intros [q [z [E [Hq _]]]]. injection E as <-.
  unfold Qeq in Hq. simpl in Hq. lia.
Qed.

(** The guard of [handleSubmit] only asks for a number above zero: handed
    the quantity 3/2, a value the controls of the form do not let through, the
    handler would create the item.  That the quantity is an integer is left to
    the number input. *)
Lemma handleSubmit_accepts_fraction :
  let w := step ClickAgregar (mount Js.asciiEngine None (mkCamera None false)) in
  let f := mkForm "Tuerca" (Js.Num (3 # 2)) "" in
  let w' := exec (handleSubmit f 1700000000000) w in
  ~ (form_name f <> "" /\ positiveInteger (form_quantity f)) /\
  isDialogOpen (ui w) = true /\
  isDialogOpen (ui w') = false /\
  log w' = [CallAddItem (mkNewItem "Tuerca" (Js.Num (3 # 2)) (Some ""));
            Notify (mkSnackbar true "Item creado" success)] /\
  api.stored w = [] /\
  api.stored w' = [mkItem 1700000000000 "Tuerca" (Js.Num (3 # 2)) (Some "")].
Proof.
  cbv zeta. split.
  - intros [_ H]. exact (not_integer_3_2 H).
  - repeat split.
Qed.








Lemma editing_false_cases (e : option Item) :
  editing e = false <-> e = None \/ exists item, e = Some item /\ id item = 0%Z.
Proof.
  unfold editing, Js.truthyZ. destruct e as [item |].
  - rewrite negb_false_iff, Z.eqb_eq. split.
    + intros H. right. exists item. auto.
    + intros [H | [item' [H H0]]]; [discriminate | congruence].
  - split; auto.
Qed.

Lemma replaceById_nth (item : Item) (l : list Item) (k : nat) (old : Item) :
  nth_error l k = Some old ->
  nth_error (replaceById item l) k =
  Some (if (id old =? id item)%Z then item else old).
Proof.
  intros H. unfold replaceById.
  rewrite nth_error_map, H. reflexivity.
Qed.

Lemma NoDup_ids_snoc (l : list Item) (x : Item) :
  NoDup (map id l) ->
  (forall y, In y l -> (id y < id x)%Z) ->
  NoDup (map id (l ++ [x])).
Proof.
  intros Hnd Hlt. rewrite map_app. simpl.
  apply NoDup_app; [exact Hnd | repeat constructor; simpl; tauto |].
  intros a Ha [<- | []]. apply in_map_iff in Ha. destruct Ha as [y [Hy Hin]].
  specialize (Hlt y Hin). lia.
Qed.

(** The three ways through [handleSubmit] once the guard has passed. *)
Lemma handleSubmit_update_eq (f : FormData) (now : Z) (w : World) (e : Item) :
  Js.truthy (form_name f) && Js.gt0 (form_quantity f) = true ->
  editItem (ui w) = Some e -> Js.truthyZ (id e) = true ->
  handleSubmit f now w =
  ((api.updateItem (edited e f) ;;
    setSnackbar (mkSnackbar true "Item actualizado" success)) ;;
   loadInventory ;; setIsDialogOpen false) w.
Proof.
  intros Hg He Hid. unfold handleSubmit. rewrite Hg.
  unfold bind at 1. unfold getState at 1. cbv iota beta zeta.
  rewrite He, Hid. reflexivity.
Qed.

Lemma handleSubmit_create_eq (f : FormData) (now : Z) (w : World) :
  Js.truthy (form_name f) && Js.gt0 (form_quantity f) = true ->
  editing (editItem (ui w)) = false ->
  handleSubmit f now w =
  ((api.addItem now (created f) ;;
    setSnackbar (mkSnackbar true "Item creado" success)) ;;
   loadInventory ;; setIsDialogOpen false) w.
Proof.
  intros Hg He. unfold handleSubmit. rewrite Hg.
  unfold bind at 1. unfold getState at 1. cbv iota beta zeta.
  unfold editing in He.
  destruct (editItem (ui w)) as [e |]; [rewrite He |]; reflexivity.
Qed.

(** [handleSubmit] on a form that passes the guard while an item with a real
    id is being edited. *)
Lemma handleSubmit_update (f : FormData) (now : Z) (w : World) (e : Item) :
  Js.truthy (form_name f) && Js.gt0 (form_quantity f) = true ->
  editItem (ui w) = Some e -> Js.truthyZ (id e) = true ->
  log (exec (handleSubmit f now) w) =
    log w ++ [CallUpdateItem (edited e f);
              Notify (mkSnackbar true "Item actualizado" success)] /\
  api.stored (exec (handleSubmit f now) w) =
    replaceById (edited e f) (api.stored w) /\
  ui (exec (handleSubmit f now) w) =
    set_isDialogOpen false
      (set_loading false
         (set_items (replaceById (edited e f) (api.stored w))
            (set_snackbar (mkSnackbar true "Item actualizado" success) (ui w)))) /\
  barcodeInput (exec (handleSubmit f now) w) = "" /\
  camera (exec (handleSubmit f now) w) = camera w /\
  sessions (exec (handleSubmit f now) w) = sessions w.
Proof.
  intros Hg He Hid. unfold exec.
  rewrite (handleSubmit_update_eq f now w e Hg He Hid).
  unfold_handlers. cbn. rewrite <- app_assoc. repeat split.
Qed.

(** [handleSubmit] on a form that passes the guard while no item with a real
    id is being edited. *)
Lemma handleSubmit_create (f : FormData) (now : Z) (w : World) :
  Js.truthy (form_name f) && Js.gt0 (form_quantity f) = true ->
  editing (editItem (ui w)) = false ->
  log (exec (handleSubmit f now) w) =
    log w ++ [CallAddItem (created f);
              Notify (mkSnackbar true "Item creado" success)] /\
  api.stored (exec (handleSubmit f now) w) =
    api.stored w ++ [api.withId now (created f)] /\
  ui (exec (handleSubmit f now) w) =
    set_isDialogOpen false
      (set_loading false
         (set_items (api.stored w ++ [api.withId now (created f)])
            (set_snackbar (mkSnackbar true "Item creado" success) (ui w)))) /\
  barcodeInput (exec (handleSubmit f now) w) = "" /\
  camera (exec (handleSubmit f now) w) = camera w /\
  sessions (exec (handleSubmit f now) w) = sessions w.
Proof.
  intros Hg He. unfold exec.
  rewrite (handleSubmit_create_eq f now w Hg He).
  unfold_handlers. cbn. rewrite <- app_assoc. repeat split.
Qed.

(** C4, as the code has it.  On a form that passes validation the dialog
    closes, and:
    - while the edit target carries a real id (not 0), one update is issued
      carrying that id and the submitted name, quantity and bar code; every
      stored item with the id becomes that record, every other item and the
      sequence of stored ids stay as they were;
    - otherwise (no target, or the placeholder with id 0) one create is issued:
      the store appends the submitted fields under the id it reads from the
      clock, whatever the form or the target held and without a look at the
      ids it holds; that id is new to the store whenever the clock is ahead of
      the ids stored so far. *)
Theorem handleSubmit_valid (f : FormData) (now : Z) (w : World) :
  form_name f <> "" -> positive (form_quantity f) ->
  let w' := exec (handleSubmit f now) w in
  isDialogOpen (ui w') = false /\
  items (ui w') = api.stored w' /\
  (forall e, editItem (ui w) = Some e -> id e <> 0%Z ->
     let e' := mkItem (id e) (form_name f) (form_quantity f) (Some (form_barcode f)) in
     log w' = log w ++ [CallUpdateItem e';
                        Notify (mkSnackbar true "Item actualizado" success)] /\
     (forall k old, nth_error (api.stored w) k = Some old ->
        nth_error (api.stored w') k = Some (if (id old =? id e)%Z then e' else old)) /\
     map id (api.stored w') = map id (api.stored w)) /\
  (editItem (ui w) = None \/ (exists e, editItem (ui w) = Some e /\ id e = 0%Z) ->
     let new := mkItem now (form_name f) (form_quantity f) (Some (form_barcode f)) in
     log w' = log w ++ [CallAddItem (mkNewItem (form_name f) (form_quantity f)
                                               (Some (form_barcode f)));
                        Notify (mkSnackbar true "Item creado" success)] /\
     api.stored w' = api.stored w ++ [new] /\
     (NoDup (map id (api.stored w)) ->
      (forall x, In x (api.stored w) -> (id x < now)%Z) ->
      NoDup (map id (api.stored w')))).
Proof.
  intros Hname Hq w'.
  assert (Hg : Js.truthy (form_name f) && Js.gt0 (form_quantity f) = true)
    by (apply handleSubmit_guard; auto).
  assert (Hclose : isDialogOpen (ui w') = false /\ items (ui w') = api.stored w').
  { subst w'. destruct (editing (editItem (ui w))) eqn:E.
    - unfold editing in E. destruct (editItem (ui w)) as [e |] eqn:He; [| discriminate].
      destruct (handleSubmit_update f now w e Hg He E) as (_ & H1 & H2 & _).
      rewrite H1, H2. auto.
    - destruct (handleSubmit_create f now w Hg E) as (_ & H1 & H2 & _).
      rewrite H1, H2. auto. }
  destruct Hclose as [Hc Hi].
  split; [exact Hc |]. split; [exact Hi |]. split.
  - intros e He Hid e'. apply truthyZ_spec in Hid.
    destruct (handleSubmit_update f now w e Hg He Hid) as (Hl & Hs & _).
    fold w' in Hl, Hs. split; [exact Hl |]. split.
    + intros k old Hk. rewrite Hs. apply (replaceById_nth (edited e f)), Hk.
    + rewrite Hs. apply replaceById_ids.
  - intros He new. apply editing_false_cases in He.
    destruct (handleSubmit_create f now w Hg He) as (Hl & Hs & _).
    fold w' in Hl, Hs. split; [exact Hl |]. split; [exact Hs |].
    intros Hnd Hlt. rewrite Hs. apply NoDup_ids_snoc; assumption.
Qed.

(** The scenario of the specification: the camera reads "99999", which an
    item of quantity 7 carries; the form comes back with quantity 8. *)
Lemma handleSubmit_valid_witness :
  let item := mkItem 1699999999999 "Tuerca" (Js.Num 7) (Some "99999") in
  let w := run [ClickEscanear; CameraDecoded 0 (DecodedText "99999")]
               (mount Js.asciiEngine (Some [item]) (mkCamera (Some ["cam0"]) true)) in
  let f := mkForm "Tuerca" (Js.Num 8) "99999" in
  let w' := exec (handleSubmit f 1700000000000) w in
  editItem (ui w) = Some item /\
  isDialogOpen (ui w') = false /\
  log w' = log w ++ [CallUpdateItem (mkItem 1699999999999 "Tuerca" (Js.Num 8) (Some "99999"));
                     Notify (mkSnackbar true "Item actualizado" success)] /\
  nth_error (api.stored w') 0 =
    Some (mkItem 1699999999999 "Tuerca" (Js.Num 8) (Some "99999")) /\
  map id (api.stored w') = [1699999999999%Z].
Proof.
  intros item w f w'.
  assert (Hname : form_name f <> "") by discriminate.
  assert (Hq : positive (form_quantity f)).
  { exists 8%Q. split; reflexivity. }
  destruct (handleSubmit_valid f 1700000000000 w Hname Hq) as (Hc & _ & Hu & _).
  assert (Hid : id item <> 0%Z) by discriminate.
  destruct (Hu item eq_refl Hid) as (Hl & Hn & Hids).
  split; [reflexivity |]. split; [exact Hc |]. split; [exact Hl |].
  split; [exact (Hn 0%nat item eq_refl) | exact Hids].
Defined.

(** C4 as worded has the store assign a fresh id at a create.  The id is the
    clock reading and nothing else: a valid form submitted from the 'Agregar'
    dialog while the clock reads the id of an item already stored leaves two
    stored items under that one id. *)
Lemma create_takes_id_already_stored :
  let t := 1700000000000%Z in
  let a := mkItem t "Tuerca" (Js.Num 3) None in
  let w := step ClickAgregar (mount Js.asciiEngine (Some [a]) (mkCamera None false)) in
  let f := mkForm "Perno" (Js.Num 5) "" in
  let w' := exec (handleSubmit f t) w in
  form_name f <> "" /\
  positiveInteger (form_quantity f) /\
  editItem (ui w) = None /\
  api.stored w = [a] /\
  log w' = [CallAddItem (mkNewItem "Perno" (Js.Num 5) (Some ""));
            Notify (mkSnackbar true "Item creado" success)] /\
  api.stored w' = [a; mkItem t "Perno" (Js.Num 5) (Some "")] /\
  map id (api.stored w') = [t; t] /\
  ~ NoDup (map id (api.stored w')).
Proof.
  cbv zeta. split; [discriminate |].
  split; [exists 5%Q, 5%Z; repeat split |].
  repeat (split; [reflexivity |]).
  intros H. inversion H as [| x l Hin _]; subst. apply Hin. left. reflexivity.
Qed.

(* ------------------------------------------------------------------ *)
(** ** Resolving a bar code *)

(** [Array.prototype.find] returns the first element its predicate accepts. *)
Lemma find_first {A : Type} (f : A -> bool) (pre post : list A) (x : A) :
  (forall y, In y pre -> f y = false) -> f x = true ->
  find f (pre ++ x :: post) = Some x.
Proof.
  induction pre as [| a pre IH]; simpl; intros Hpre Hx.
  - rewrite Hx. reflexivity.
  - rewrite (Hpre a (or_introl eq_refl)). apply IH; auto.
Qed.

Lemma find_cases {A : Type} (f : A -> bool) (l : list A) :
  (exists pre x post, l = pre ++ x :: post /\ f x = true /\
                      (forall y, In y pre -> f y = false) /\ find f l = Some x) \/
  ((forall y, In y l -> f y = false) /\ find f l = None).
Proof.
  induction l as [| a l IH]; simpl.
  - right. split; [intros y [] | reflexivity].
  - destruct (f a) eqn:Ea.
    + left. exists [], a, l. repeat split; auto. intros y [].
    + destruct IH as [(pre & x & post & -> & Hx & Hpre & Hf) | [Hall Hf]].
      * left. exists (a :: pre), x, post. repeat split; auto.
        intros y [<- | Hy]; auto.
      * right. split; [| exact Hf]. intros y [<- | Hy]; auto.
Qed.

Lemma barcodeIs_false (code : string) (item : Item) :
  barcodeIs code item = false <-> barcode item <> Some code.
Proof.
  rewrite <- barcodeIs_spec. destruct (barcodeIs code item); split; congruence.
Qed.

(** What [handleBarcodeDetected] leaves behind, by the outcome of the search. *)
Lemma handleBarcodeDetected_exec (its : list Item) (code : string) (w : World) :
  exec (handleBarcodeDetected its code) w =
  set_ui (set_isDialogOpen true
            (set_editItem
               (Some match find (barcodeIs code) its with
                     | Some item => item
                     | None => blankItem code
                     end) (ui w))) w.
Proof.
  unfold_handlers. destruct (find (barcodeIs code) its); reflexivity.
Qed.

Lemma handleBarcodeDetected_first_match (its pre post : list Item) (item : Item)
      (code : string) (w : World) :
  its = pre ++ item :: post ->
  barcode item = Some code ->
  (forall x, In x pre -> barcode x <> Some code) ->
  editItem (ui (exec (handleBarcodeDetected its code) w)) = Some item /\
  (id item <> 0%Z ->
   dialogMode (ui (exec (handleBarcodeDetected its code) w)) = EditMode).
Proof.
  intros -> Hb Hpre. rewrite handleBarcodeDetected_exec, find_first.
  - split; [reflexivity |]. intros Hid. unfold dialogMode. cbn.
    apply truthyZ_spec in Hid. rewrite Hid. reflexivity.
  - intros y Hy. apply barcodeIs_false, Hpre, Hy.
  - apply barcodeIs_spec, Hb.
Qed.

Lemma handleBarcodeDetected_no_match (its : list Item) (code : string) (w : World) :
  (forall x, In x its -> barcode x <> Some code) ->
  editItem (ui (exec (handleBarcodeDetected its code) w)) = Some (blankItem code) /\
  dialogMode (ui (exec (handleBarcodeDetected its code) w)) = CreateMode.
Proof.
  intros Hnone. rewrite handleBarcodeDetected_exec.
  destruct (find_cases (barcodeIs code) its)
    as [(pre & x & post & -> & Hx & _) | [_ ->]].
  - exfalso. apply barcodeIs_spec in Hx.
    apply (Hnone x); [apply in_elt | exact Hx].
  - split; reflexivity.
Qed.

Lemma first_match_or_none (its : list Item) (code : string) :
  (exists pre item post,
     its = pre ++ item :: post /\ barcode item = Some code /\
     (forall x, In x pre -> barcode x <> Some code)) \/
  (forall x, In x its -> barcode x <> Some code).
Proof.
  destruct (find_cases (barcodeIs code) its)
    as [(pre & x & post & Hl & Hx & Hpre & _) | [Hall _]].
  - left. exists pre, x, post. split; [exact Hl |].
    split; [apply barcodeIs_spec, Hx |].
    intros y Hy. apply barcodeIs_false, Hpre, Hy.
  - right. intros y Hy. apply barcodeIs_false, Hall, Hy.
Qed.

Lemma onKeyDown_Enter_exec (w : World) :
  exec (onKeyDown Enter) w =
  set_barcodeInput ""
    (exec (handleBarcodeDetected (items (ui w)) (barcodeInput w)) w).
Proof. unfold onKeyDown. rewrite !exec_bind. reflexivity. Qed.

(** Resolution of a captured bar code.  [handleBarcodeDetected] looks in the
    item list [its] that its closure holds for the first item whose bar code is
    the captured string, character for character.  If there is one, the dialog
    opens on exactly that item, in edit mode as the item carries a real id;
    otherwise it opens in create mode on the placeholder of id 0, empty name,
    quantity 1 and the captured bar code.  One of the two cases always applies,
    and nothing else in the component changes.  Enter on the wedge input calls
    it on the list of the current render; the callback of a decode session
    calls it on the list the session was started with, whatever the list has
    become. *)
Theorem handleBarcodeDetected_resolves (its : list Item) (code : string) (w : World) :
  let w' := exec (handleBarcodeDetected its code) w in
  isDialogOpen (ui w') = true /\
  (forall pre item post,
     its = pre ++ item :: post ->
     barcode item = Some code ->
     (forall x, In x pre -> barcode x <> Some code) ->
     editItem (ui w') = Some item /\
     (id item <> 0%Z -> dialogMode (ui w') = EditMode)) /\
  ((forall x, In x its -> barcode x <> Some code) ->
     editItem (ui w') = Some (mkItem 0 "" (Js.Num 1) (Some code)) /\
     dialogMode (ui w') = CreateMode) /\
  ((exists pre item post,
      its = pre ++ item :: post /\ barcode item = Some code /\
      (forall x, In x pre -> barcode x <> Some code)) \/
   (forall x, In x its -> barcode x <> Some code)) /\
  (exists target, w' = set_ui (set_isDialogOpen true (set_editItem (Some target) (ui w))) w) /\
  exec (onKeyDown Enter) w =
    set_barcodeInput "" (exec (handleBarcodeDetected (items (ui w)) (barcodeInput w)) w) /\
  exec (decodeCallback its (DecodedText code)) w =
    exec (setIsScannerOpen false) w'.
Proof.
  intros w'. subst w'.
  split; [rewrite handleBarcodeDetected_exec; reflexivity |].
  split; [| split; [| split; [| split; [| split]]]].
  - intros pre item post. apply handleBarcodeDetected_first_match.
  - apply handleBarcodeDetected_no_match.
  - apply first_match_or_none.
  - eexists. apply handleBarcodeDetected_exec.
  - apply onKeyDown_Enter_exec.
  - unfold decodeCallback. rewrite exec_bind. reflexivity.
Qed.

(** C9.  The empty string is resolved like any other code.  Enter on the empty
    wedge input looks for the first item whose bar code is the empty string:
    an item stored without the field does not count, while a form submitted
    with the bar code field left blank stores the field as the empty string.
    If such an item exists the dialog opens on it (in edit mode, its id being a
    real one); only if none exists does the dialog open in create mode, on the
    placeholder whose bar code is the empty string. *)
Theorem empty_barcode_not_special (w : World) :
  barcodeInput w = "" ->
  let w' := exec (onKeyDown Enter) w in
  isDialogOpen (ui w') = true /\
  barcodeInput w' = "" /\
  (forall pre item post,
     items (ui w) = pre ++ item :: post ->
     barcode item = Some "" ->
     (forall x, In x pre -> barcode x <> Some "") ->
     editItem (ui w') = Some item /\
     (id item <> 0%Z -> dialogMode (ui w') = EditMode)) /\
  ((forall x, In x (items (ui w)) -> barcode x <> Some "") ->
     editItem (ui w') = Some (mkItem 0 "" (Js.Num 1) (Some "")) /\
     dialogMode (ui w') = CreateMode) /\
  (forall x, In x (items (ui w)) -> barcode x = None -> barcodeIs "" x = false) /\
  (forall f now w0,
     form_name f <> "" -> positive (form_quantity f) -> form_barcode f = "" ->
     editing (editItem (ui w0)) = false ->
     let new := mkItem now (form_name f) (form_quantity f) (Some "") in
     api.stored (exec (handleSubmit f now) w0) = api.stored w0 ++ [new] /\
     items (ui (exec (handleSubmit f now) w0)) = api.stored w0 ++ [new]).
Proof.
  intros Hempty w'. subst w'. rewrite onKeyDown_Enter_exec, Hempty.
  split; [rewrite handleBarcodeDetected_exec; reflexivity |].
  split; [reflexivity |].
  split; [| split; [| split]].
  - intros pre item post H1 H2 H3.
    apply (handleBarcodeDetected_first_match _ pre post item "" w H1 H2 H3).
  - intros Hnone. apply (handleBarcodeDetected_no_match _ "" w Hnone).
  - intros x _ Hx. unfold barcodeIs. rewrite Hx. reflexivity.
  - intros f now w0 Hname Hq Hb He new.
    assert (Hg : Js.truthy (form_name f) && Js.gt0 (form_quantity f) = true)
      by (apply handleSubmit_guard; auto).
    destruct (handleSubmit_create f now w0 Hg He) as (_ & Hs & Hu & _).
    rewrite Hs, Hu. unfold api.withId, created. cbn. rewrite Hb. auto.
Qed.

(** A blank bar code field at creation, then Enter on the empty wedge input:
    the item just created is the one the dialog opens on, in edit mode. *)
Lemma empty_barcode_not_special_witness :
  let w := run [ClickAgregar; SubmitForm (mkForm "Tuerca" (Js.Num 3) "") 1700000000000]
               (mount Js.asciiEngine None (mkCamera None false)) in
  let item := mkItem 1700000000000 "Tuerca" (Js.Num 3) (Some "") in
  items (ui w) = [item] /\
  barcodeInput w = "" /\
  editItem (ui (exec (onKeyDown Enter) w)) = Some item /\
  dialogMode (ui (exec (onKeyDown Enter) w)) = EditMode.
Proof.
  intros w item.
  assert (Hempty : barcodeInput w = "") by reflexivity.
  destruct (empty_barcode_not_special w Hempty) as (_ & _ & Hfound & _).
  assert (Hid : id item <> 0%Z) by discriminate.
  destruct (Hfound [] item [] eq_refl eq_refl (fun x (H : In x []) => match H with end))
    as [He Hmode].
  split; [reflexivity |]. split; [reflexivity |].
  split; [exact He | exact (Hmode Hid)].
Defined.

(* ------------------------------------------------------------------ *)
(** ** Ids in the store *)

Lemma Subseq_map {A B : Type} (g : A -> B) (r l : list A) :
  Subseq r l -> Subseq (map g r) (map g l).
Proof. induction 1; simpl; constructor; assumption. Qed.

Lemma Subseq_filter {A : Type} (f : A -> bool) (l : list A) :
  Subseq (filter f l) l.
Proof.
  induction l as [| x l IH]; simpl.
  - constructor.
  - destruct (f x); constructor; exact IH.
Qed.

Lemma Subseq_Forall {A : Type} (P : A -> Prop) (r l : list A) :
  Subseq r l -> Forall P l -> Forall P r.
Proof.
  induction 1 as [| x r l _ IH | x r l _ IH]; intros H.
  - constructor.
  - inversion H; subst. auto.
  - inversion H; subst. constructor; auto.
Qed.

Lemma Subseq_increasing (r l : list Z) :
  Subseq r l -> StronglySorted Z.lt l -> StronglySorted Z.lt r.
Proof.
  induction 1 as [| x r l Hs IH | x r l Hs IH]; intros H.
  - constructor.
  - inversion H; subst. auto.
  - inversion H; subst. constructor; [auto |].
    apply (Subseq_Forall _ _ _ Hs). assumption.
Qed.

Lemma increasing_NoDup (l : list Z) : StronglySorted Z.lt l -> NoDup l.
Proof.
  induction 1 as [| x l _ IH Hx]; constructor; [| exact IH].
  intros Hin. rewrite Forall_forall in Hx. specialize (Hx x Hin). lia.
Qed.

Lemma creationTimes_cons (op : StoreOp) (ops : list StoreOp) :
  creationTimes (op :: ops) = creationTimes [op] ++ creationTimes ops.
Proof. destruct op; reflexivity. Qed.

(** One call: the ids stored afterwards are those stored before, some of them
    possibly removed, followed by the clock reading of a creation. *)
Lemma applyOp_ids (op : StoreOp) (w : World) :
  Subseq (map id (api.stored (exec (applyOp op) w)))
         (map id (api.stored w) ++ creationTimes [op]).
Proof.
  destruct op as [now item | item | i]; unfold_handlers; cbn;
    rewrite ?stored_set_log.
  - rewrite map_app. apply Subseq_refl.
  - rewrite app_nil_r. fold (replaceById item (api.stored w)).
    rewrite replaceById_ids. apply Subseq_refl.
  - rewrite app_nil_r. apply Subseq_map, Subseq_filter.
Qed.

Lemma applyOps_ids (ops : list StoreOp) (w : World) :
  Subseq (map id (api.stored (applyOps ops w)))
         (map id (api.stored w) ++ creationTimes ops).
Proof.
  revert w. induction ops as [| op ops IH]; intros w.
  - simpl. rewrite app_nil_r. apply Subseq_refl.
  - cbn [applyOps]. rewrite creationTimes_cons, app_assoc.
    eapply Subseq_trans; [apply IH |].
    apply Subseq_app_tail, applyOp_ids.
Qed.

(** C5, as the code has it.  The id of a created item is the clock reading
    taken at its creation, and the store compares it with nothing.  Provided
    the readings taken by successive creations increase strictly, and exceed
    the ids already stored, the stored ids are pairwise distinct after any
    sequence of creations, updates and deletions, and they increase along the
    list, that is in order of creation. *)
Theorem ids_unique_while_clock_increases (ops : list StoreOp) (w : World) :
  StronglySorted Z.lt (map id (api.stored w) ++ creationTimes ops) ->
  let l := api.stored (applyOps ops w) in
  NoDup (map id l) /\
  (forall i j x y, nth_error l i = Some x -> nth_error l j = Some y ->
                   id x = id y -> i = j) /\
  StronglySorted Z.lt (map id l) /\
  Subseq (map id l) (map id (api.stored w) ++ creationTimes ops).
Proof.
  intros Hclock l.
  assert (Hsub := applyOps_ids ops w). fold l in Hsub.
  assert (Hinc := Subseq_increasing _ _ Hsub Hclock).
  assert (Hnd := increasing_NoDup _ Hinc).
  split; [exact Hnd |]. split; [| split; assumption].
  intros i j x y Hi Hj Hxy.
  assert (Hlen : (i < List.length (map id l))%nat).
  { rewrite length_map. apply nth_error_Some. congruence. }
  apply (proj1 (NoDup_nth_error (map id l)) Hnd i j Hlen).
  rewrite !nth_error_map, Hi, Hj. simpl. congruence.
Qed.

Lemma ids_unique_while_clock_increases_witness :
  let ops := [OpCreate 1700000000000 (mkNewItem "Tuerca" (Js.Num 3) None);
              OpCreate 1700000002000 (mkNewItem "Perno" (Js.Num 5) (Some "779"));
              OpUpdate (mkItem 1700000000000 "Tuerca" (Js.Num 4) None);
              OpDelete 1700000002000;
              OpCreate 1700000004000 (mkNewItem "Arandela" (Js.Num 1) (Some ""))] in
  let l := api.stored (applyOps ops (mount Js.asciiEngine None (mkCamera None false))) in
  map id l = [1700000000000; 1700000004000]%Z /\
  NoDup (map id l).
Proof.
  intros ops l. split; [reflexivity |].
  apply (ids_unique_while_clock_increases ops (mount Js.asciiEngine None (mkCamera None false))).
  simpl. repeat (constructor; [| repeat (constructor; try lia)]). constructor.
Defined.

(** C5 as worded speaks of every sequence of creations.  Two creations that
    read the same clock value (the wall clock may stand still or be set back)
    store two items under one id, whether they are calls on [api] or forms
    submitted through the dialog. *)
Lemma same_clock_reading_same_id :
  let t := 1700000000000%Z in
  let w0 := mount Js.asciiEngine None (mkCamera None false) in
  let byApi := api.stored (applyOps [OpCreate t (mkNewItem "Tuerca" (Js.Num 3) None);
                                     OpCreate t (mkNewItem "Perno" (Js.Num 5) None)] w0) in
  let byForm := api.stored (run [ClickAgregar; SubmitForm (mkForm "Tuerca" (Js.Num 3) "") t;
                                 ClickAgregar; SubmitForm (mkForm "Perno" (Js.Num 5) "") t] w0) in
  byApi = [mkItem t "Tuerca" (Js.Num 3) None; mkItem t "Perno" (Js.Num 5) None] /\
  byForm = [mkItem t "Tuerca" (Js.Num 3) (Some ""); mkItem t "Perno" (Js.Num 5) (Some "")] /\
  ~ NoDup (map id byApi) /\
  ~ NoDup (map id byForm).
Proof.
  cbv zeta. split; [reflexivity |]. split; [reflexivity |].
  split; intros H; inversion H as [| x l Hin _]; subst; apply Hin; left; reflexivity.
Qed.

(* ------------------------------------------------------------------ *)
(** ** The camera sessions *)

Lemma keeps_ret {A : Type} (a : A) : keepsSessions (ret a).
Proof. intros w. exists []. simpl. rewrite app_nil_r. reflexivity. Qed.

Lemma keeps_bind {A B : Type} (m : M A) (k : A -> M B) :
  keepsSessions m -> (forall a, keepsSessions (k a)) -> keepsSessions (bind m k).
Proof.
  intros Hm Hk w. unfold bind. destruct (Hm w) as [s1 H1].
  destruct (m w) as [a w1]. simpl in H1.
  destruct (Hk a w1) as [s2 H2]. exists (s1 ++ s2).
  rewrite H2, H1, app_assoc. reflexivity.
Qed.

Lemma keeps_getState : keepsSessions getState.
Proof. intros w. exists []. simpl. rewrite app_nil_r. reflexivity. Qed.

Lemma keeps_modify (f : State -> State) : keepsSessions (modify f).
Proof. intros w. exists []. simpl. rewrite app_nil_r. reflexivity. Qed.

Lemma keeps_emit (e : Effect) : keepsSessions (emit e).
Proof. intros w. exists []. simpl. rewrite app_nil_r. reflexivity. Qed.

Lemma keeps_getItems : keepsSessions api.getItems.
Proof. intros w. exists []. simpl. rewrite app_nil_r. reflexivity. Qed.

Lemma keeps_writeItems (l : list Item) : keepsSessions (api.writeItems l).
Proof. intros w. exists []. simpl. rewrite app_nil_r. reflexivity. Qed.

Lemma keeps_if {A : Type} (b : bool) (m1 m2 : M A) :
  keepsSessions m1 -> keepsSessions m2 -> keepsSessions (if b then m1 else m2).
Proof. destruct b; auto. Qed.

Ltac keeps :=
  repeat first
    [ apply keeps_ret | apply keeps_getState | apply keeps_modify
    | apply keeps_emit | apply keeps_getItems | apply keeps_writeItems
    | apply keeps_bind | apply keeps_if | intro ].

Lemma keeps_setSnackbar (s : SnackbarState) : keepsSessions (setSnackbar s).
Proof. unfold setSnackbar. keeps. Qed.

Lemma keeps_loadInventory : keepsSessions loadInventory.
Proof. unfold loadInventory, setLoading, setItems. keeps. Qed.

Lemma keeps_filterInventory : keepsSessions filterInventory.
Proof. unfold filterInventory, setFilteredItems. keeps. Qed.

Lemma keeps_handleBarcodeDetected (its : list Item) (code : string) :
  keepsSessions (handleBarcodeDetected its code).
Proof.
  unfold handleBarcodeDetected, setEditItem, setIsDialogOpen.
  destruct (find (barcodeIs code) its); keeps.
Qed.

Lemma keeps_handleSubmit (f : FormData) (now : Z) : keepsSessions (handleSubmit f now).
Proof.
  unfold handleSubmit, api.updateItem, api.addItem, setIsDialogOpen.
  apply keeps_if; [| keeps].
  apply keeps_bind; [keeps |]. intros st. cbv zeta. apply keeps_bind.
  - destruct (editItem st) as [e |]; [apply keeps_if |];
      (apply keeps_bind; [keeps | intro; apply keeps_setSnackbar]).
  - intro. apply keeps_bind; [apply keeps_loadInventory | keeps].
Qed.

Lemma keeps_deleteItem (i : Z) : keepsSessions (deleteItem i).
Proof.
  unfold deleteItem, api.deleteItem.
  apply keeps_bind; [keeps |]. intro.
  apply keeps_bind; [apply keeps_loadInventory | intro; apply keeps_setSnackbar].
Qed.

Lemma keeps_decodeCallback (its : list Item) (d : Decoded) :
  keepsSessions (decodeCallback its d).
Proof.
  unfold decodeCallback, setIsScannerOpen. destruct d as [text | b].
  - apply keeps_bind; [apply keeps_handleBarcodeDetected | keeps].
  - keeps.
Qed.

Lemma keeps_initScanner (its : list Item) : keepsSessions (initScanner its).
Proof.
  unfold initScanner. apply keeps_bind; [keeps |]. intros st.
  apply keeps_if; [| keeps]. intros w.
  assert (Hfail : exists started,
             sessions (snd (scannerStartFailed w)) = sessions w ++ started).
  { apply (keeps_bind (emit ConsoleError)); [keeps | intro; apply keeps_setSnackbar]. }
  destruct (videoInputDevices (camera w)) as [[| d ds] |]; try exact Hfail.
  unfold decodeFromVideoDevice. destruct (streamGranted (camera w)).
  - exists [mkSession its]. reflexivity.
  - apply keeps_emit.
Qed.

Lemma keeps_scannerEffect (before : bool) : keepsSessions (scannerEffect before).
Proof.
  unfold scannerEffect. apply keeps_bind; [keeps |]. intros st.
  repeat apply keeps_if; try apply keeps_initScanner; keeps.
Qed.

Lemma keeps_onKeyDown (k : Key) : keepsSessions (onKeyDown k).
Proof.
  assert (Hget : keepsSessions getBarcodeInput).
  { intros w. exists []. simpl. rewrite app_nil_r. reflexivity. }
  assert (Hset : forall v, keepsSessions (setBarcodeInput v)).
  { intros v w. exists []. simpl. rewrite app_nil_r. reflexivity. }
  unfold onKeyDown. destruct k as [| c].
  - apply keeps_bind; [keeps |]. intros st.
    apply keeps_bind; [exact Hget |]. intros value.
    apply keeps_bind; [apply keeps_handleBarcodeDetected | intro; apply Hset].
  - apply keeps_bind; [exact Hget | intro; apply Hset].
Qed.

Lemma keeps_dispatch (ev : Event) : keepsSessions (dispatch ev).
Proof.
  destruct ev; unfold dispatch, setIsDialogOpen, setEditItem, setSearch,
    setIsScannerOpen.
  - keeps.
  - apply keeps_bind; [keeps |]. intros st.
    destruct (nth_error (filteredItems st) row); keeps.
  - apply keeps_bind; [keeps |]. intros st.
    destruct (nth_error (filteredItems st) row); [apply keeps_deleteItem | keeps].
  - keeps.
  - apply keeps_bind; [keeps |]. intros st.
    apply keeps_if; [apply keeps_handleSubmit | keeps].
  - keeps.
  - apply keeps_onKeyDown.
  - keeps.
  - keeps.
  - intros w. destruct (nth_error (sessions w) session) as [s |].
    + apply keeps_decodeCallback.
    + exists []. simpl. rewrite app_nil_r. reflexivity.
  - intros w. exists []. simpl. rewrite app_nil_r. reflexivity.
Qed.

Lemma step_keeps_sessions (ev : Event) (w : World) :
  exists started, sessions (step ev w) = sessions w ++ started.
Proof.
  unfold step, exec.
  apply (keeps_bind (dispatch ev)); [apply keeps_dispatch |]. intro.
  apply keeps_bind; [apply keeps_filterInventory |]. intro.
  apply keeps_scannerEffect.
Qed.

(** No event the component can receive stops a decode loop: whatever follows,
    the sessions running now keep running. *)
Lemma run_keeps_sessions (evs : list Event) (w : World) :
  exists started, sessions (run evs w) = sessions w ++ started.
Proof.
  revert w. induction evs as [| ev evs IH]; intros w; simpl.
  - exists []. rewrite app_nil_r. reflexivity.
  - destruct (IH (step ev w)) as [s2 H2].
    destruct (step_keeps_sessions ev w) as [s1 H1].
    exists (s1 ++ s2). rewrite H2, H1, app_assoc. reflexivity.
Qed.

(** C7, on the code.  Once a decode loop has started, closing the overlay by
    its button or through the first decoded result leaves the loop running
    with the camera: the effect's cleanup is empty and nothing else stops a
    session, so it is still there after any further events. *)
Theorem scanner_closed_camera_still_held (e : Js.Engine) :
  let w0 := mount e None (mkCamera (Some ["cam0"]) true) in
  let dismissed := run [ClickEscanear; ClickCerrar] w0 in
  let decoded := run [ClickEscanear; CameraDecoded 0 (DecodedText "99999")] w0 in
  sessions w0 = [] /\
  isScannerOpen (ui dismissed) = false /\
  sessions dismissed = [mkSession []] /\
  isScannerOpen (ui decoded) = false /\
  sessions decoded = [mkSession []] /\
  (forall evs, exists started, sessions (run evs dismissed) = mkSession [] :: started) /\
  (forall evs, exists started, sessions (run evs decoded) = mkSession [] :: started).
Proof.
  cbv zeta. repeat (split; [reflexivity |]).
  split; intros evs; apply (run_keeps_sessions evs).
Qed.

(** A session left running keeps calling back with the item list of the render
    that started it: the bar code of an item created since is resolved as
    unknown, and the dialog reopens in create mode. *)
Lemma leaked_session_resolves_old_list :
  let t := 1700000000000%Z in
  let w := run [ClickEscanear;
                CameraDecoded 0 (DecodedText "123");
                SubmitForm (mkForm "Tuerca" (Js.Num 1) "123") t;
                CameraDecoded 0 (DecodedText "123")]
               (mount Js.asciiEngine None (mkCamera (Some ["cam0"]) true)) in
  items (ui w) = [mkItem t "Tuerca" (Js.Num 1) (Some "123")] /\
  isScannerOpen (ui w) = false /\
  isDialogOpen (ui w) = true /\
  editItem (ui w) = Some (blankItem "123") /\
  dialogMode (ui w) = CreateMode.
Proof. cbv zeta. repeat split. Qed.

(** C1, on the code.  The wedge path resolves a code against the current
    item list, the camera path against the list of the render that opened the
    scanner.  The camera reads "123", which no item carries; the dialog opens
    in create mode and the item is created from it with that bar code.  The
    decode loop is still running and reads the code again: the item is in the
    list, first with that bar code, and the dialog opens in create mode on the
    placeholder, where the same code typed by a wedge scanner opens the item
    in edit mode. *)
Theorem camera_scan_misses_item_created_since (e : Js.Engine) :
  let t := 1700000000000%Z in
  let item := mkItem t "Tuerca" (Js.Num 1) (Some "123") in
  let w := run [ClickEscanear;
                CameraDecoded 0 (DecodedText "123");
                SubmitForm (mkForm "Tuerca" (Js.Num 1) "123") t]
               (mount e None (mkCamera (Some ["cam0"]) true)) in
  let byWedge := run (typed "123" ++ [WedgeKey Enter]) w in
  let byCamera := step (CameraDecoded 0 (DecodedText "123")) w in
  items (ui w) = [item] /\
  api.stored w = [item] /\
  isDialogOpen (ui w) = false /\
  find (barcodeIs "123") (items (ui w)) = Some item /\
  isDialogOpen (ui byWedge) = true /\
  editItem (ui byWedge) = Some item /\
  dialogMode (ui byWedge) = EditMode /\
  items (ui byCamera) = [item] /\
  isDialogOpen (ui byCamera) = true /\
  editItem (ui byCamera) = Some (mkItem 0 "" (Js.Num 1) (Some "123")) /\
  dialogMode (ui byCamera) = CreateMode.
Proof. cbv zeta. repeat split. Qed.

(** The scanner start when no device is listed, or when listing fails: the
    [catch] clause reports it, the overlay stays open, and the list, the dialog
    and the store are as they were. *)
Lemma scanner_start_without_device (w : World) :
  isScannerOpen (ui w) = false -> loading (ui w) = false -> error (ui w) = None ->
  videoInputDevices (camera w) = None \/ videoInputDevices (camera w) = Some [] ->
  isScannerOpen (ui (step ClickEscanear w)) = true /\
  log (step ClickEscanear w) =
    log w ++ [ConsoleError; Notify (mkSnackbar true scannerStartMessage error_)] /\
  sessions (step ClickEscanear w) = sessions w /\
  localStorage (step ClickEscanear w) = localStorage w /\
  items (ui (step ClickEscanear w)) = items (ui w) /\
  editItem (ui (step ClickEscanear w)) = editItem (ui w) /\
  isDialogOpen (ui (step ClickEscanear w)) = isDialogOpen (ui w).
Proof.
  intros Hclosed Hload Herr Hdev.
  unfold step. rewrite Hclosed.
  unfold exec, dispatch, bind, setIsScannerOpen, filterInventory,
    setFilteredItems, modify, scannerEffect, getState, initScanner,
    videoMounted. cbn. rewrite Hload, Herr. cbn.
  destruct Hdev as [-> | ->]; unfold scannerStartFailed; unfold_handlers; cbn;
    rewrite <- app_assoc; repeat split.
Qed.

(** The scanner start when a device is listed and its stream granted: a decode
    session starts, and the list its callback will resolve against is the item
    list of that moment. *)
Lemma scanner_start_captures_items (w : World) (d : string) (ds : list string) :
  isScannerOpen (ui w) = false -> loading (ui w) = false -> error (ui w) = None ->
  videoInputDevices (camera w) = Some (d :: ds) ->
  streamGranted (camera w) = true ->
  isScannerOpen (ui (step ClickEscanear w)) = true /\
  sessions (step ClickEscanear w) = sessions w ++ [mkSession (items (ui w))] /\
  items (ui (step ClickEscanear w)) = items (ui w) /\
  log (step ClickEscanear w) = log w.
Proof.
  intros Hclosed Hload Herr Hdev Hgrant.
  unfold step. rewrite Hclosed.
  unfold exec, dispatch, bind, setIsScannerOpen, filterInventory,
    setFilteredItems, modify, scannerEffect, getState, initScanner,
    videoMounted, decodeFromVideoDevice. cbn.
  rewrite Hload, Herr. cbn. rewrite Hdev, Hgrant. repeat split.
Qed.

(** C8, on the code.  With a device listed and the stream refused, the promise
    of [decodeFromVideoDevice] rejects with nobody awaiting it: the [catch]
    clause does not run, no notification is sent, and the rejection is left
    unhandled.  The overlay stays open.  Nor does the decode callback notify
    of an error handed to it: at most it writes to the console. *)
Theorem scanner_start_refused_goes_unreported (e : Js.Engine) :
  let w0 := mount e None (mkCamera (Some ["cam0"]) false) in
  let w := step ClickEscanear w0 in
  isScannerOpen (ui w) = true /\
  log w = [UnhandledRejection] /\
  snackbar (ui w) = snackbar (ui w0) /\
  sessions w = [] /\
  (forall its b w1,
     exec (decodeCallback its (DecodeErr b)) w1 =
     if b then w1 else set_log (log w1 ++ [ConsoleError]) w1).
Proof.
  cbv zeta. repeat (split; [reflexivity |]).
  intros its [|] w1; reflexivity.
Qed.

(* ------------------------------------------------------------------ *)
(** ** Stored items carry real ids *)

Lemma realIds_filter (f : Item -> bool) (l : list Item) :
  realIds l -> realIds (filter f l).
Proof. apply Subseq_Forall, Subseq_filter. Qed.

Lemma realIds_replaceById (item : Item) (l : list Item) :
  id item <> 0%Z -> realIds l -> realIds (replaceById item l).
Proof.
  intros Hid H. unfold realIds, replaceById. apply Forall_map.
  revert H. apply Forall_impl. intros x Hx.
  destruct (id x =? id item)%Z; assumption.
Qed.

Lemma realIds_snoc (item : Item) (l : list Item) :
  id item <> 0%Z -> realIds l -> realIds (l ++ [item]).
Proof.
  intros Hid H. apply Forall_app. split; [exact H |].
  constructor; [exact Hid | constructor].
Qed.

(** [wellFormed] looks at the store, the two lists and the sessions only. *)
Lemma wellFormed_frame (w w' : World) :
  api.stored w' = api.stored w ->
  items (ui w') = items (ui w) ->
  filteredItems (ui w') = filteredItems (ui w) ->
  sessions w' = sessions w ->
  wellFormed w -> wellFormed w'.
Proof. unfold wellFormed. intros -> -> -> ->. tauto. Qed.

Lemma wellFormed_filterInventory (w : World) :
  wellFormed w -> wellFormed (exec filterInventory w).
Proof.
  unfold wellFormed. intros (Hs & Hi & _ & Hc). unfold_handlers. cbn.
  repeat split; try assumption. apply realIds_filter, Hi.
Qed.

Lemma wellFormed_initScanner (w : World) :
  wellFormed w -> wellFormed (exec (initScanner (items (ui w))) w).
Proof.
  intros Hw. assert (Hw' := Hw). destruct Hw' as (Hs & Hi & Hf & Hc).
  unfold exec, initScanner, bind, getState. cbv iota beta.
  destruct (videoMounted (ui w)); [| exact Hw].
  assert (Hfail : wellFormed (snd (scannerStartFailed w))).
  { revert Hw. apply wellFormed_frame; reflexivity. }
  destruct (videoInputDevices (camera w)) as [[| d ds] |]; try exact Hfail.
  unfold decodeFromVideoDevice. destruct (streamGranted (camera w)).
  - unfold wellFormed. cbn. repeat split; try assumption.
    apply Forall_app. split; [exact Hc |]. constructor; [exact Hi | constructor].
  - revert Hw. apply wellFormed_frame; reflexivity.
Qed.

Lemma wellFormed_scannerEffect (before : bool) (w : World) :
  wellFormed w -> wellFormed (exec (scannerEffect before) w).
Proof.
  intros Hw. unfold exec, scannerEffect, bind, getState. cbv iota beta.
  destruct (Bool.eqb before (isScannerOpen (ui w))); [exact Hw |].
  destruct (isScannerOpen (ui w)); [| exact Hw].
  apply wellFormed_initScanner, Hw.
Qed.

Lemma wellFormed_handleSubmit (f : FormData) (now : Z) (w : World) :
  now <> 0%Z -> wellFormed w -> wellFormed (exec (handleSubmit f now) w).
Proof.
  intros Hnow Hw. assert (Hw' := Hw). destruct Hw' as (Hs & Hi & Hf & Hc).
  destruct (Js.truthy (form_name f) && Js.gt0 (form_quantity f)) eqn:Hg.
  - destruct (editing (editItem (ui w))) eqn:He.
    + unfold editing in He.
      destruct (editItem (ui w)) as [e |] eqn:Hedit; [| discriminate].
      destruct (handleSubmit_update f now w e Hg Hedit He)
        as (_ & Hst & Hui & _ & _ & Hss).
      assert (Hr : realIds (replaceById (edited e f) (api.stored w))).
      { apply realIds_replaceById; [apply truthyZ_spec, He | exact Hs]. }
      unfold wellFormed. rewrite Hst, Hui, Hss. cbn. auto.
    + destruct (handleSubmit_create f now w Hg He)
        as (_ & Hst & Hui & _ & _ & Hss).
      assert (Hr : realIds (api.stored w ++ [api.withId now (created f)])).
      { apply realIds_snoc; [exact Hnow | exact Hs]. }
      unfold wellFormed. rewrite Hst, Hui, Hss. cbn. auto.
  - unfold exec, handleSubmit. rewrite Hg. exact Hw.
Qed.

Lemma wellFormed_deleteItem (i : Z) (w : World) :
  wellFormed w -> wellFormed (exec (deleteItem i) w).
Proof.
  intros (Hs & Hi & Hf & Hc). unfold wellFormed. unfold_handlers. cbn.
  rewrite !stored_set_log.
  repeat split; try assumption; apply realIds_filter, Hs.
Qed.

Lemma wellFormed_dispatch (ev : Event) (w : World) :
  clockRunning ev -> wellFormed w -> wellFormed (exec (dispatch ev) w).
Proof.
  intros Hclock Hw. destruct ev; cbn [dispatch].
  - revert Hw. apply wellFormed_frame; reflexivity.
  - unfold exec, bind, getState. cbv iota beta.
    destruct (nth_error (filteredItems (ui w)) row); [| exact Hw].
    revert Hw. apply wellFormed_frame; reflexivity.
  - unfold exec, bind, getState. cbv iota beta.
    destruct (nth_error (filteredItems (ui w)) row); [| exact Hw].
    apply wellFormed_deleteItem, Hw.
  - revert Hw. apply wellFormed_frame; reflexivity.
  - unfold exec, bind, getState. cbv iota beta.
    destruct (isDialogOpen (ui w)); [| exact Hw].
    apply wellFormed_handleSubmit; assumption.
  - revert Hw. apply wellFormed_frame; reflexivity.
  - destruct k as [| c].
    + rewrite onKeyDown_Enter_exec, handleBarcodeDetected_exec.
      revert Hw. apply wellFormed_frame; reflexivity.
    + revert Hw. apply wellFormed_frame; reflexivity.
  - revert Hw. apply wellFormed_frame; reflexivity.
  - revert Hw. apply wellFormed_frame; reflexivity.
  - unfold exec. destruct (nth_error (sessions w) session) as [s |]; [| exact Hw].
    destruct d as [text | b].
    + fold (exec (decodeCallback (captured_items s) (DecodedText text)) w).
      unfold decodeCallback. rewrite exec_bind, handleBarcodeDetected_exec.
      revert Hw. apply wellFormed_frame; reflexivity.
    + destruct b; revert Hw; apply wellFormed_frame; reflexivity.
  - revert Hw. apply wellFormed_frame; reflexivity.
Qed.

Lemma step_wellFormed (ev : Event) (w : World) :
  clockRunning ev -> wellFormed w -> wellFormed (step ev w).
Proof.
  intros Hclock Hw. unfold step. rewrite !exec_bind.
  apply wellFormed_scannerEffect, wellFormed_filterInventory,
    wellFormed_dispatch; assumption.
Qed.

Lemma mount_wellFormed (e : Js.Engine) (slot : option (list Item)) (c : Camera) :
  realIds (match slot with Some l => l | None => [] end) ->
  wellFormed (mount e slot c).
Proof.
  intros Hs. unfold mount, wellFormed. unfold_handlers. cbn.
  unfold api.stored. cbn.
  repeat split; try assumption; try constructor. apply realIds_filter, Hs.
Qed.

(** From a page mounted on a store of real ids, and as long as the clock does
    not read 0 at a submission, every item of the list carries a real id:
    a bar code that resolves to an item opens the dialog in edit mode. *)
Lemma run_wellFormed (evs : list Event) (w : World) :
  Forall clockRunning evs -> wellFormed w -> wellFormed (run evs w).
Proof.
  revert w. induction evs as [| ev evs IH]; intros w Hclock Hw; simpl.
  - exact Hw.
  - inversion Hclock; subst. apply IH; [assumption |].
    apply step_wellFormed; assumption.
Qed.

(** On a well-formed page, a code typed by the wedge scanner that some item
    carries opens the dialog in edit mode on the first such item. *)
Lemma wedge_known_code_edits (w : World) (pre post : list Item) (item : Item) :
  wellFormed w ->
  items (ui w) = pre ++ item :: post ->
  barcode item = Some (barcodeInput w) ->
  (forall x, In x pre -> barcode x <> Some (barcodeInput w)) ->
  isDialogOpen (ui (exec (onKeyDown Enter) w)) = true /\
  editItem (ui (exec (onKeyDown Enter) w)) = Some item /\
  dialogMode (ui (exec (onKeyDown Enter) w)) = EditMode.
Proof.
  intros (_ & Hi & _) Hl Hb Hpre.
  assert (Hid : id item <> 0%Z).
  { unfold realIds in Hi. rewrite Forall_forall in Hi. apply Hi.
    rewrite Hl. apply in_elt. }
  rewrite onKeyDown_Enter_exec.
  destruct (handleBarcodeDetected_first_match _ pre post item _ w Hl Hb Hpre)
    as [He Hm].
  split; [rewrite handleBarcodeDetected_exec; reflexivity |].
  split; [exact He | exact (Hm Hid)].
Qed.

Lemma wedge_known_code_edits_witness :
  let a := mkItem 1700000000000 "Tuerca" (Js.Num 3) (Some "779") in
  let b := mkItem 1700000002000 "Perno" (Js.Num 5) (Some "12345") in
  let c := mkItem 1700000004000 "Perno largo" (Js.Num 2) (Some "12345") in
  let w := run [WedgeKey (Char "1"); WedgeKey (Char "2"); WedgeKey (Char "3");
                WedgeKey (Char "4"); WedgeKey (Char "5")]
               (mount Js.asciiEngine (Some [a; b; c]) (mkCamera None false)) in
  barcodeInput w = "12345" /\
  editItem (ui (step (WedgeKey Enter) w)) = Some b /\
  editItem (ui (exec (onKeyDown Enter) w)) = Some b /\
  dialogMode (ui (exec (onKeyDown Enter) w)) = EditMode.
Proof.
  intros a b c w.
  assert (Hw : wellFormed w).
  { apply run_wellFormed.
    - repeat constructor.
    - apply mount_wellFormed. repeat constructor; discriminate. }
  assert (Hpre : forall x, In x [a] -> barcode x <> Some (barcodeInput w)).
  { intros x [<- | []]. discriminate. }
  destruct (wedge_known_code_edits w [a] [c] b Hw eq_refl eq_refl Hpre)
    as (_ & He & Hm).
  split; [reflexivity |]. split; [reflexivity |]. split; assumption.
Defined.

(** The wedge scanner types "12345" and Enter while no item carries that code:
    the dialog opens to create an item, only the bar code filled in, and the
    hidden input is empty again. *)
Lemma wedge_unknown_code_creates :
  let w := run [WedgeKey (Char "1"); WedgeKey (Char "2"); WedgeKey (Char "3");
                WedgeKey (Char "4"); WedgeKey (Char "5"); WedgeKey Enter]
               (mount Js.asciiEngine (Some [mkItem 1700000000000 "Tuerca" (Js.Num 3) (Some "779")])
                      (mkCamera None false)) in
  isDialogOpen (ui w) = true /\
  editItem (ui w) = Some (mkItem 0 "" (Js.Num 1) (Some "12345")) /\
  dialogMode (ui w) = CreateMode /\
  barcodeInput w = "".
Proof. cbv zeta. repeat split. Qed.

(** Whatever the user and the camera do after a decode loop has started, the
    loop is still running: no handler of the component stops a session. *)
Theorem sessions_never_stopped (evs : list Event) (w : World) (k : nat) (s : Session) :
  nth_error (sessions w) k = Some s ->
  nth_error (sessions (run evs w)) k = Some s.
Proof.
  intros Hk. destruct (run_keeps_sessions evs w) as [started ->].
  rewrite nth_error_app1; [exact Hk |].
  apply nth_error_Some. congruence.
Qed.

Lemma sessions_never_stopped_witness :
  let w := step ClickEscanear (mount Js.asciiEngine None (mkCamera (Some ["cam0"]) true)) in
  let evs := [CameraDecoded 0 (DecodedText "779"); ClickCancelar;
              ClickEscanear; ClickCerrar; CameraChanged (mkCamera None false)] in
  nth_error (sessions (run evs w)) 0 = Some (mkSession []).
Proof.
  intros w evs. apply (sessions_never_stopped evs w 0 (mkSession [])).
  reflexivity.
Defined.

(** Every item of a page mounted on a store of real ids carries a real id,
    whatever events follow, provided the clock does not read 0 when a form is
    submitted. *)
Theorem reachable_items_have_real_ids
        (e : Js.Engine) (slot : option (list Item)) (c : Camera) (evs : list Event) :
  realIds (match slot with Some l => l | None => [] end) ->
  Forall clockRunning evs ->
  wellFormed (run evs (mount e slot c)).
Proof.
  intros Hslot Hclock. apply run_wellFormed; [exact Hclock |].
  apply mount_wellFormed, Hslot.
Qed.

Lemma reachable_items_have_real_ids_witness :
  wellFormed
    (run [ClickAgregar; SubmitForm (mkForm "Tuerca" (Js.Num 3) "779") 1700000000000;
          ClickEscanear; CameraDecoded 0 (DecodedText "779");
          SubmitForm (mkForm "Tuerca" (Js.Num 4) "779") 1700000009000;
          ClickEliminar 0]
         (mount Js.asciiEngine None (mkCamera (Some ["cam0"]) true))).
Proof.
  apply reachable_items_have_real_ids.
  - constructor.
  - repeat constructor; discriminate.
Defined.

Lemma scanner_start_without_device_witness :
  let w := mount Js.asciiEngine (Some [mkItem 1700000000000 "Tuerca" (Js.Num 3) (Some "779")])
                 (mkCamera (Some []) true) in
  isScannerOpen (ui (step ClickEscanear w)) = true /\
  log (step ClickEscanear w) =
    log w ++ [ConsoleError; Notify (mkSnackbar true scannerStartMessage error_)] /\
  sessions (step ClickEscanear w) = sessions w /\
  localStorage (step ClickEscanear w) = localStorage w /\
  items (ui (step ClickEscanear w)) = items (ui w) /\
  editItem (ui (step ClickEscanear w)) = editItem (ui w) /\
  isDialogOpen (ui (step ClickEscanear w)) = isDialogOpen (ui w).
Proof.
  intros w. apply scanner_start_without_device; try reflexivity.
  right. reflexivity.
Defined.

(* ------------------------------------------------------------------ *)
(** ** Ids in the store, seen from the page *)

Lemma Subseq_app_r {A : Type} (l t : list A) : Subseq l (l ++ t).
Proof.
  induction l as [| x l IH]; simpl.
  - apply Subseq_nil_l.
  - apply Subseq_keep, IH.
Qed.

Lemma stored_filterInventory (w : World) :
  api.stored (exec filterInventory w) = api.stored w.
Proof. reflexivity. Qed.

Lemma stored_scannerEffect (before : bool) (w : World) :
  api.stored (exec (scannerEffect before) w) = api.stored w.
Proof.
  unfold exec, scannerEffect, bind, getState. cbv iota beta.
  destruct (Bool.eqb before (isScannerOpen (ui w))); [reflexivity |].
  destruct (isScannerOpen (ui w)); [| reflexivity].
  unfold initScanner, bind, getState. cbv iota beta.
  destruct (videoMounted (ui w)); [| reflexivity].
  destruct (videoInputDevices (camera w)) as [[| d ds] |]; try reflexivity.
  unfold decodeFromVideoDevice. destruct (streamGranted (camera w)); reflexivity.
Qed.

Lemma submitTimes_cons (ev : Event) (evs : list Event) :
  submitTimes (ev :: evs) = submitTimes [ev] ++ submitTimes evs.
Proof. destruct ev; reflexivity. Qed.

Lemma dispatch_ids (ev : Event) (w : World) :
  Subseq (map id (api.stored (exec (dispatch ev) w)))
         (map id (api.stored w) ++ submitTimes [ev]).
Proof.
  destruct ev; cbn [dispatch submitTimes]; rewrite ?app_nil_r;
    try apply Subseq_refl.
  - unfold exec, bind, getState. cbv iota beta.
    destruct (nth_error (filteredItems (ui w)) row); apply Subseq_refl.
  - unfold exec, bind, getState. cbv iota beta.
    destruct (nth_error (filteredItems (ui w)) row) as [item |];
      [| apply Subseq_refl].
    unfold_handlers. cbn. rewrite ?stored_set_log.
    apply Subseq_map, Subseq_filter.
  - unfold exec, bind, getState. cbv iota beta.
    destruct (isDialogOpen (ui w)); [| apply Subseq_app_r].
    destruct (Js.truthy (form_name formData) && Js.gt0 (form_quantity formData)) eqn:Hg.
    + destruct (editing (editItem (ui w))) eqn:He.
      * unfold editing in He.
        destruct (editItem (ui w)) as [e |] eqn:Hedit; [| discriminate].
        destruct (handleSubmit_update formData now w e Hg Hedit He) as (_ & Hst & _).
        unfold exec in Hst. rewrite Hst, replaceById_ids. apply Subseq_app_r.
      * destruct (handleSubmit_create formData now w Hg He) as (_ & Hst & _).
        unfold exec in Hst. rewrite Hst, map_app. apply Subseq_refl.
    + unfold handleSubmit. rewrite Hg. apply Subseq_app_r.
  - destruct k as [| c]; [| apply Subseq_refl].
    rewrite onKeyDown_Enter_exec, handleBarcodeDetected_exec. apply Subseq_refl.
  - unfold exec. destruct (nth_error (sessions w) session) as [s |];
      [| apply Subseq_refl].
    destruct d as [text | b].
    + fold (exec (decodeCallback (captured_items s) (DecodedText text)) w).
      unfold decodeCallback. rewrite exec_bind, handleBarcodeDetected_exec.
      apply Subseq_refl.
    + destruct b; apply Subseq_refl.
Qed.

Lemma step_ids (ev : Event) (w : World) :
  Subseq (map id (api.stored (step ev w)))
         (map id (api.stored w) ++ submitTimes [ev]).
Proof.
  unfold step. rewrite !exec_bind, stored_scannerEffect, stored_filterInventory.
  apply dispatch_ids.
Qed.

Lemma run_ids (evs : list Event) (w : World) :
  Subseq (map id (api.stored (run evs w)))
         (map id (api.stored w) ++ submitTimes evs).
Proof.
  revert w. induction evs as [| ev evs IH]; intros w.
  - simpl. rewrite app_nil_r. apply Subseq_refl.
  - cbn [run]. rewrite submitTimes_cons, app_assoc.
    eapply Subseq_trans; [apply IH |].
    apply Subseq_app_tail, step_ids.
Qed.

(** Driven through the page, the store holds pairwise distinct ids, increasing
    in order of creation, as long as the forms are submitted at strictly
    increasing clock readings that exceed the ids already stored. *)
Theorem page_ids_unique_while_clock_increases (evs : list Event) (w : World) :
  StronglySorted Z.lt (map id (api.stored w) ++ submitTimes evs) ->
  NoDup (map id (api.stored (run evs w))) /\
  StronglySorted Z.lt (map id (api.stored (run evs w))).
Proof.
  intros Hclock.
  assert (Hinc := Subseq_increasing _ _ (run_ids evs w) Hclock).
  split; [apply increasing_NoDup |]; exact Hinc.
Qed.

Lemma page_ids_unique_while_clock_increases_witness :
  let evs := [ClickAgregar; SubmitForm (mkForm "Tuerca" (Js.Num 3) "779") 1700000000000;
              ClickAgregar; SubmitForm (mkForm "" (Js.Num 3) "") 1700000001000;
              SubmitForm (mkForm "Perno" (Js.Num 5) "") 1700000002000;
              ClickEditar 0; SubmitForm (mkForm "Tuerca" (Js.Num 4) "779") 1700000003000] in
  let w := mount Js.asciiEngine None (mkCamera None false) in
  map id (api.stored (run evs w)) = [1700000000000; 1700000002000]%Z /\
  NoDup (map id (api.stored (run evs w))).
Proof.
  intros evs w. split; [reflexivity |].
  apply (page_ids_unique_while_clock_increases evs w).
  simpl. repeat (constructor; [| repeat (constructor; try lia)]). constructor.
Defined.

(* ------------------------------------------------------------------ *)
(** ** The store: how its operations compose *)


Lemma stored_updateItem (item : Item) (w : World) :
  api.stored (exec (api.updateItem item) w) = replaceById item (api.stored w).
Proof. reflexivity. Qed.

Lemma stored_deleteItem (i : Z) (w : World) :
  api.stored (exec (api.deleteItem i) w) = removeById i (api.stored w).
Proof. reflexivity. Qed.

Lemma removeById_absent (i : Z) (l : list Item) :
  (forall x, In x l -> id x <> i) -> removeById i l = l.
Proof.
  intros H. apply filter_all. intros x Hx.
  apply negb_true_iff, Z.eqb_neq, H, Hx.
Qed.

Lemma removeById_In (i : Z) (l : list Item) (x : Item) :
  In x (removeById i l) <-> In x l /\ id x <> i.
Proof.
  unfold removeById. rewrite filter_In, negb_true_iff, Z.eqb_neq. tauto.
Qed.

Lemma removeById_replaceById (item : Item) (l : list Item) :
  removeById (id item) (replaceById item l) = removeById (id item) l.
Proof.
  unfold removeById, replaceById. induction l as [| x l IH]; simpl.
  - reflexivity.
  - destruct (Z.eqb_spec (id x) (id item)) as [E | E]; simpl.
    + rewrite Z.eqb_refl. simpl. exact IH.
    + destruct (Z.eqb_spec (id x) (id item)); [contradiction |].
      simpl. rewrite IH. reflexivity.
Qed.

Lemma replaceById_twice (a b : Item) (l : list Item) :
  id a = id b -> replaceById b (replaceById a l) = replaceById b l.
Proof.
  intros Hab. unfold replaceById. rewrite map_map. apply map_ext. intros x.
  destruct (Z.eqb_spec (id x) (id a)) as [E | E].
  - rewrite E, Hab, Z.eqb_refl. reflexivity.
  - reflexivity.
Qed.

Lemma removeById_comm (i j : Z) (l : list Item) :
  removeById i (removeById j l) = removeById j (removeById i l).
Proof.
  unfold removeById. induction l as [| x l IH]; simpl.
  - reflexivity.
  - destruct (id x =? j)%Z eqn:Ej, (id x =? i)%Z eqn:Ei; simpl;
      rewrite ?Ej, ?Ei; simpl; rewrite IH; reflexivity.
Qed.

Lemma removeById_idem (i : Z) (l : list Item) :
  removeById i (removeById i l) = removeById i l.
Proof.
  apply removeById_absent. intros x Hx. apply removeById_In in Hx. tauto.
Qed.





(** Laws of the store.  Of two updates under one id the later one wins;
    deleting an id twice is deleting it once; deletions can be exchanged; an
    update followed by the deletion of its id, and an update of an id that has
    just been deleted, both leave what the deletion alone would. *)
Theorem store_operations_compose (a b : Item) (i j : Z) (w : World) :
  (id a = id b ->
   api.stored (exec (api.updateItem b) (exec (api.updateItem a) w)) =
   api.stored (exec (api.updateItem b) w)) /\
  api.stored (exec (api.deleteItem i) (exec (api.deleteItem i) w)) =
  api.stored (exec (api.deleteItem i) w) /\
  api.stored (exec (api.deleteItem i) (exec (api.deleteItem j) w)) =
  api.stored (exec (api.deleteItem j) (exec (api.deleteItem i) w)) /\
  api.stored (exec (api.deleteItem (id a)) (exec (api.updateItem a) w)) =
  api.stored (exec (api.deleteItem (id a)) w) /\
  api.stored (exec (api.updateItem a) (exec (api.deleteItem (id a)) w)) =
  api.stored (exec (api.deleteItem (id a)) w).
Proof.
  repeat (rewrite stored_deleteItem || rewrite stored_updateItem).
  split; [apply replaceById_twice |].
  split; [apply removeById_idem |].
  split; [apply removeById_comm |].
  split; [apply removeById_replaceById |].
  apply replaceById_absent. intros x Hx. apply removeById_In in Hx. tauto.
Qed.

(* ------------------------------------------------------------------ *)
(** ** The page stays in step with the store *)

Lemma step_unfold (ev : Event) (w : World) :
  step ev w =
  exec (scannerEffect (isScannerOpen (ui w)))
       (exec filterInventory (exec (dispatch ev) w)).
Proof. unfold step. rewrite !exec_bind. reflexivity. Qed.

Lemma exec_filterInventory (w : World) :
  exec filterInventory w =
  set_ui (set_filteredItems
            (filter (matchesSearch (engine w) (search (ui w))) (items (ui w)))
            (ui w)) w.
Proof. reflexivity. Qed.

(** The scanner effect touches the notification, the log and the sessions,
    and nothing else. *)
Lemma scannerEffect_frame (before : bool) (w : World) :
  let w' := exec (scannerEffect before) w in
  localStorage w' = localStorage w /\
  barcodeInput w' = barcodeInput w /\
  camera w' = camera w /\
  items (ui w') = items (ui w) /\
  filteredItems (ui w') = filteredItems (ui w) /\
  loading (ui w') = loading (ui w) /\
  error (ui w') = error (ui w) /\
  editItem (ui w') = editItem (ui w) /\
  isDialogOpen (ui w') = isDialogOpen (ui w) /\
  search (ui w') = search (ui w) /\
  isScannerOpen (ui w') = isScannerOpen (ui w).
Proof.
  unfold exec, scannerEffect, bind, getState. cbv iota beta zeta.
  destruct (Bool.eqb before (isScannerOpen (ui w))); [repeat split |].
  destruct (isScannerOpen (ui w)) eqn:Hopen; [| repeat split; exact Hopen].
  unfold initScanner, bind, getState. cbv iota beta.
  destruct (videoMounted (ui w)); [| repeat split; exact Hopen].
  destruct (videoInputDevices (camera w)) as [[| d ds] |];
    try (repeat split; exact Hopen).
  unfold decodeFromVideoDevice.
  destruct (streamGranted (camera w)); repeat split; exact Hopen.
Qed.

(** No handler changes the engine the page runs on. *)
Lemma engine_scannerEffect (before : bool) (w : World) :
  engine (exec (scannerEffect before) w) = engine w.
Proof.
  unfold exec, scannerEffect, bind, getState. cbv iota beta.
  destruct (Bool.eqb before (isScannerOpen (ui w))); [reflexivity |].
  destruct (isScannerOpen (ui w)); [| reflexivity].
  unfold initScanner, bind, getState. cbv iota beta.
  destruct (videoMounted (ui w)); [| reflexivity].
  destruct (videoInputDevices (camera w)) as [[| d ds] |]; try reflexivity.
  unfold decodeFromVideoDevice. destruct (streamGranted (camera w)); reflexivity.
Qed.

Lemma engine_handleSubmit (f : FormData) (now : Z) (w : World) :
  engine (exec (handleSubmit f now) w) = engine w.
Proof.
  unfold exec, handleSubmit.
  destruct (Js.truthy (form_name f) && Js.gt0 (form_quantity f)); [| reflexivity].
  unfold bind at 1. unfold getState at 1. cbv iota beta zeta.
  destruct (editItem (ui w)) as [e |]; [destruct (Js.truthyZ (id e)) |];
    unfold_handlers; reflexivity.
Qed.

Lemma engine_dispatch (ev : Event) (w : World) :
  engine (exec (dispatch ev) w) = engine w.
Proof.
  destruct ev; cbn [dispatch].
  - reflexivity.
  - unfold exec, bind, getState. cbv iota beta.
    destruct (nth_error (filteredItems (ui w)) row); reflexivity.
  - unfold exec, bind, getState. cbv iota beta.
    destruct (nth_error (filteredItems (ui w)) row); reflexivity.
  - reflexivity.
  - unfold exec, bind, getState. cbv iota beta.
    destruct (isDialogOpen (ui w)); [| reflexivity].
    apply engine_handleSubmit.
  - reflexivity.
  - destruct k as [| c]; [| reflexivity].
    rewrite onKeyDown_Enter_exec, handleBarcodeDetected_exec. reflexivity.
  - reflexivity.
  - reflexivity.
  - unfold exec. destruct (nth_error (sessions w) session) as [s |]; [| reflexivity].
    destruct d as [text | b].
    + fold (exec (decodeCallback (captured_items s) (DecodedText text)) w).
      unfold decodeCallback. rewrite exec_bind, handleBarcodeDetected_exec.
      reflexivity.
    + destruct b; reflexivity.
  - reflexivity.
Qed.

Lemma engine_step (ev : Event) (w : World) : engine (step ev w) = engine w.
Proof.
  rewrite step_unfold, engine_scannerEffect.
  change (engine (exec filterInventory (exec (dispatch ev) w)))
    with (engine (exec (dispatch ev) w)).
  apply engine_dispatch.
Qed.

Lemma engine_run (evs : list Event) (w : World) : engine (run evs w) = engine w.
Proof.
  revert w. induction evs as [| ev evs IH]; intros w; simpl; [reflexivity |].
  rewrite IH. apply engine_step.
Qed.

Lemma inSync_frame (w w' : World) :
  engine w' = engine w ->
  api.stored w' = api.stored w ->
  items (ui w') = items (ui w) ->
  filteredItems (ui w') = filteredItems (ui w) ->
  search (ui w') = search (ui w) ->
  loading (ui w') = loading (ui w) ->
  error (ui w') = error (ui w) ->
  inSync w -> inSync w'.
Proof. unfold inSync. intros -> -> -> -> -> -> ->. tauto. Qed.

(** The part of [inSync] that a handler must keep; the filter effect that
    follows every handler restores the rest. *)
Lemma loaded_frame (w w' : World) :
  api.stored w' = api.stored w ->
  items (ui w') = items (ui w) ->
  loading (ui w') = loading (ui w) ->
  error (ui w') = error (ui w) ->
  items (ui w) = api.stored w /\ loading (ui w) = false /\ error (ui w) = None ->
  items (ui w') = api.stored w' /\ loading (ui w') = false /\ error (ui w') = None.
Proof. intros -> -> -> ->. tauto. Qed.

Lemma loaded_deleteItem (i : Z) (w : World) :
  error (ui w) = None ->
  let w' := exec (deleteItem i) w in
  items (ui w') = api.stored w' /\ loading (ui w') = false /\ error (ui w') = None.
Proof. intros He. unfold_handlers. cbn. auto. Qed.

Lemma loaded_handleSubmit (f : FormData) (now : Z) (w : World) :
  items (ui w) = api.stored w /\ loading (ui w) = false /\ error (ui w) = None ->
  let w' := exec (handleSubmit f now) w in
  items (ui w') = api.stored w' /\ loading (ui w') = false /\ error (ui w') = None.
Proof.
  intros Hw w'. subst w'.
  destruct (Js.truthy (form_name f) && Js.gt0 (form_quantity f)) eqn:Hg.
  - destruct (editing (editItem (ui w))) eqn:He.
    + unfold editing in He.
      destruct (editItem (ui w)) as [e |] eqn:Hedit; [| discriminate].
      destruct (handleSubmit_update f now w e Hg Hedit He) as (_ & Hst & Hui & _).
      rewrite Hst, Hui. cbn. tauto.
    + destruct (handleSubmit_create f now w Hg He) as (_ & Hst & Hui & _).
      rewrite Hst, Hui. cbn. tauto.
  - unfold exec, handleSubmit. rewrite Hg. exact Hw.
Qed.

Lemma loaded_dispatch (ev : Event) (w : World) :
  items (ui w) = api.stored w /\ loading (ui w) = false /\ error (ui w) = None ->
  let w' := exec (dispatch ev) w in
  items (ui w') = api.stored w' /\ loading (ui w') = false /\ error (ui w') = None.
Proof.
  intros Hw w'. subst w'. destruct ev; cbn [dispatch].
  - revert Hw. apply loaded_frame; reflexivity.
  - unfold exec, bind, getState. cbv iota beta.
    destruct (nth_error (filteredItems (ui w)) row); [| exact Hw].
    revert Hw. apply loaded_frame; reflexivity.
  - unfold exec, bind, getState. cbv iota beta.
    destruct (nth_error (filteredItems (ui w)) row); [| exact Hw].
    apply loaded_deleteItem. tauto.
  - revert Hw. apply loaded_frame; reflexivity.
  - unfold exec, bind, getState. cbv iota beta.
    destruct (isDialogOpen (ui w)); [| exact Hw].
    apply loaded_handleSubmit, Hw.
  - revert Hw. apply loaded_frame; reflexivity.
  - destruct k as [| c].
    + rewrite onKeyDown_Enter_exec, handleBarcodeDetected_exec.
      revert Hw. apply loaded_frame; reflexivity.
    + revert Hw. apply loaded_frame; reflexivity.
  - revert Hw. apply loaded_frame; reflexivity.
  - revert Hw. apply loaded_frame; reflexivity.
  - unfold exec. destruct (nth_error (sessions w) session) as [s |]; [| exact Hw].
    destruct d as [text | b].
    + fold (exec (decodeCallback (captured_items s) (DecodedText text)) w).
      unfold decodeCallback. rewrite exec_bind, handleBarcodeDetected_exec.
      revert Hw. apply loaded_frame; reflexivity.
    + destruct b; revert Hw; apply loaded_frame; reflexivity.
  - revert Hw. apply loaded_frame; reflexivity.
Qed.

Lemma step_inSync (ev : Event) (w : World) : inSync w -> inSync (step ev w).
Proof.
  intros (Hi & _ & Hl & He). rewrite step_unfold.
  destruct (loaded_dispatch ev w (conj Hi (conj Hl He))) as (Hi' & Hl' & He').
  set (w1 := exec (dispatch ev) w) in *.
  destruct (scannerEffect_frame (isScannerOpen (ui w)) (exec filterInventory w1))
    as (Hs & _ & _ & H1 & H2 & H3 & H4 & _ & _ & H5 & _).
  unfold inSync, api.stored. rewrite engine_scannerEffect, Hs, H1, H2, H3, H4, H5.
  rewrite exec_filterInventory. cbn. fold (api.stored w1). auto.
Qed.

Lemma mount_inSync (e : Js.Engine) (slot : option (list Item)) (c : Camera) :
  inSync (mount e slot c).
Proof. unfold inSync. repeat split. Qed.

(** On a mounted page, between events (each handler having run to its end
    on a storage that can be read): the list in memory is the stored list, and
    the rows shown are exactly the stored items that match the search text as
    [filterInventory] tests it, in the order of the store. *)
Theorem reachable_page_in_sync (e : Js.Engine) (slot : option (list Item))
        (c : Camera) (evs : list Event) :
  let w := run evs (mount e slot c) in
  items (ui w) = api.stored w /\
  filteredItems (ui w) = filter (matchesSearch e (search (ui w))) (api.stored w) /\
  Kept (MatchesLowered e (search (ui w))) (api.stored w) (filteredItems (ui w)) /\
  Subseq (filteredItems (ui w)) (api.stored w).
Proof.
  intros w.
  assert (H : inSync w).
  { subst w. generalize (mount_inSync e slot c). generalize (mount e slot c).
    induction evs as [| ev evs IH]; intros w0 Hw0; simpl.
    - exact Hw0.
    - apply IH, step_inSync, Hw0. }
  assert (He : engine w = e) by (subst w; rewrite engine_run; reflexivity).
  destruct H as (Hi & Hf & _ & _). rewrite He, Hi in Hf.
  assert (K : Kept (MatchesLowered e (search (ui w))) (api.stored w)
                   (filteredItems (ui w))).
  { rewrite Hf. apply filter_Kept. intros x. apply matchesSearch_spec. }
  split; [exact Hi |]. split; [exact Hf |]. split; [exact K |].
  exact (Kept_Subseq _ _ _ K).
Qed.

(** Mounting the page.  The list is what the slot holds, or empty when the
    slot was never written; everything is shown, nothing is open, nothing has
    been notified or written. *)
Theorem mount_loads_the_store (e : Js.Engine) (slot : option (list Item))
        (c : Camera) :
  let w := mount e slot c in
  items (ui w) = match slot with Some l => l | None => [] end /\
  filteredItems (ui w) = items (ui w) /\
  loading (ui w) = false /\
  error (ui w) = None /\
  isDialogOpen (ui w) = false /\
  isScannerOpen (ui w) = false /\
  editItem (ui w) = None /\
  localStorage w = slot /\
  sessions w = [] /\
  log w = [].
Proof.
  cbv zeta. split; [reflexivity |]. split; [| repeat split].
  unfold mount. unfold_handlers. cbn.
  apply filter_all. intros x _. apply matchesSearch_empty.
Qed.

(* ------------------------------------------------------------------ *)
(** ** What the events do to the page *)

Lemma scannerEffect_same (w : World) :
  exec (scannerEffect (isScannerOpen (ui w))) w = w.
Proof.
  unfold exec, scannerEffect, bind, getState. cbv iota beta.
  rewrite Bool.eqb_reflx. reflexivity.
Qed.

Lemma scannerEffect_closed (before : bool) (w : World) :
  isScannerOpen (ui w) = false -> exec (scannerEffect before) w = w.
Proof.
  intros H. unfold exec, scannerEffect, bind, getState. cbv iota beta.
  rewrite H. destruct (Bool.eqb before false); reflexivity.
Qed.

(** A step whose handler leaves the scanner flag alone is the handler followed
    by the filter. *)
Lemma step_without_scanner (ev : Event) (w : World) :
  isScannerOpen (ui (exec (dispatch ev) w)) = isScannerOpen (ui w) ->
  step ev w = exec filterInventory (exec (dispatch ev) w).
Proof.
  intros H. rewrite step_unfold, <- H.
  apply (scannerEffect_same (exec filterInventory (exec (dispatch ev) w))).
Qed.

Lemma dispatch_keeps_store (ev : Event) (w : World) :
  writesStore ev = false ->
  localStorage (exec (dispatch ev) w) = localStorage w /\
  items (ui (exec (dispatch ev) w)) = items (ui w) /\
  log (exec (dispatch ev) w) = log w \/
  localStorage (exec (dispatch ev) w) = localStorage w /\
  items (ui (exec (dispatch ev) w)) = items (ui w) /\
  log (exec (dispatch ev) w) = log w ++ [ConsoleError].
Proof.
  intros Hev. destruct ev; try discriminate; cbn [dispatch].
  - left. repeat split.
  - left. unfold exec, bind, getState. cbv iota beta.
    destruct (nth_error (filteredItems (ui w)) row); repeat split.
  - left. repeat split.
  - left. repeat split.
  - left. destruct k as [| c].
    + rewrite onKeyDown_Enter_exec, handleBarcodeDetected_exec. repeat split.
    + repeat split.
  - left. repeat split.
  - left. repeat split.
  - unfold exec. destruct (nth_error (sessions w) session) as [s |];
      [| left; repeat split].
    destruct d as [text | b].
    + left. fold (exec (decodeCallback (captured_items s) (DecodedText text)) w).
      unfold decodeCallback. rewrite exec_bind, handleBarcodeDetected_exec.
      repeat split.
    + destruct b; [left | right]; repeat split.
  - left. repeat split.
Qed.

(** Only a submitted form and a row's delete button write to the store.  No
    other event (searching, opening or cancelling the dialog, key strokes of
    the wedge scanner, opening or closing the camera scanner, a decoded bar
    code) changes the stored slot, the list in memory, or calls a writing
    function of [api]; nor does a form submitted while the dialog is closed,
    or a delete button of a row that is not there. *)
Theorem only_submit_and_delete_write (ev : Event) (w : World) :
  (writesStore ev = false ->
   localStorage (step ev w) = localStorage w /\
   items (ui (step ev w)) = items (ui w) /\
   (forall e, In e (log (step ev w)) -> ~ In e (log w) ->
      match e with
      | CallAddItem _ | CallUpdateItem _ | CallDeleteItem _ => False
      | _ => True
      end)) /\
  (forall f now, isDialogOpen (ui w) = false ->
     localStorage (step (SubmitForm f now) w) = localStorage w /\
     log (step (SubmitForm f now) w) = log w) /\
  (forall row, nth_error (filteredItems (ui w)) row = None ->
     localStorage (step (ClickEliminar row) w) = localStorage w /\
     log (step (ClickEliminar row) w) = log w).
Proof.
  split; [| split].
  - intros Hev. rewrite step_unfold.
    set (w1 := exec (dispatch ev) w).
    set (w2 := exec filterInventory w1).
    destruct (scannerEffect_frame (isScannerOpen (ui w)) w2)
      as (Hs & _ & _ & Hi & _).
    assert (Hlog : forall e, In e (log (exec (scannerEffect (isScannerOpen (ui w))) w2)) ->
                     In e (log w1) \/ e = ConsoleError \/ e = UnhandledRejection \/
                     exists s, e = Notify s).
    { intros e. unfold exec, scannerEffect, bind, getState. cbv iota beta.
      destruct (Bool.eqb (isScannerOpen (ui w)) (isScannerOpen (ui w2))); [auto |].
      destruct (isScannerOpen (ui w2)); [| auto].
      unfold initScanner, bind, getState. cbv iota beta.
      destruct (videoMounted (ui w2)); [| auto].
      assert (Hfail : In e (log (snd (scannerStartFailed w2))) ->
                      In e (log w1) \/ e = ConsoleError \/ e = UnhandledRejection \/
                      exists s, e = Notify s).
      { unfold_handlers. cbn. rewrite !in_app_iff. simpl.
        intros [[H | [H | []]] | [H | []]]; eauto. }
      destruct (videoInputDevices (camera w2)) as [[| d ds] |]; try exact Hfail.
      unfold decodeFromVideoDevice. destruct (streamGranted (camera w2)).
      - auto.
      - unfold_handlers. cbn. rewrite in_app_iff. simpl.
        intros [H | [H | []]]; auto. }
    destruct (dispatch_keeps_store ev w Hev) as [(H1 & H2 & H3) | (H1 & H2 & H3)];
      fold w1 in H1, H2, H3.
    + split; [rewrite Hs; exact H1 |]. split; [rewrite Hi; exact H2 |].
      intros e He Hnew. destruct (Hlog e He) as [H | [-> | [-> | [s ->]]]]; auto.
      rewrite H3 in H. contradiction.
    + split; [rewrite Hs; exact H1 |]. split; [rewrite Hi; exact H2 |].
      intros e He Hnew. destruct (Hlog e He) as [H | [-> | [-> | [s ->]]]]; auto.
      rewrite H3, in_app_iff in H. destruct H as [H | [<- | []]]; tauto.
  - intros f now Hclosed. rewrite step_without_scanner.
    + cbn [dispatch]. unfold exec at 2 4. unfold bind, getState. cbv iota beta.
      rewrite Hclosed. split; reflexivity.
    + cbn [dispatch]. unfold exec, bind, getState. cbv iota beta.
      rewrite Hclosed. reflexivity.
  - intros row Hrow. rewrite step_without_scanner.
    + cbn [dispatch]. unfold exec at 2 4. unfold bind, getState. cbv iota beta.
      rewrite Hrow. split; reflexivity.
    + cbn [dispatch]. unfold exec, bind, getState. cbv iota beta.
      rewrite Hrow. reflexivity.
Qed.

(* ------------------------------------------------------------------ *)
(** ** Searching *)

Local Open Scope string_scope.

Lemma string_app_assoc (a b c : string) : (a ++ b) ++ c = a ++ b ++ c.
Proof. induction a as [| x a IH]; simpl; [reflexivity | rewrite IH; reflexivity]. Qed.

Lemma occursIn_trans (a b c : string) : occursIn a b -> occursIn b c -> occursIn a c.
Proof.
  intros [p1 [s1 ->]] [p2 [s2 ->]]. exists (p2 ++ p1), (s1 ++ s2).
  rewrite !string_app_assoc. reflexivity.
Qed.

Lemma occursIn_lower (a b : string) :
  occursIn a b -> occursIn (Js.asciiLower a) (Js.asciiLower b).
Proof.
  intros [p [s ->]]. exists (Js.asciiLower p), (Js.asciiLower s).
  rewrite !asciiLower_app. reflexivity.
Qed.

Lemma occursIgnoringCase_lower (q s : string) :
  occursIgnoringCase q s <-> occursIn (Js.asciiLower q) (Js.asciiLower s).
Proof. rewrite <- includes_lower_spec, includes_spec. tauto. Qed.

(** An item matching a query matches every text contained in the query. *)
Lemma Matches_narrow (q q' : string) (item : Item) :
  occursIn q q' -> Matches q' item -> Matches q item.
Proof.
  intros Hq [H | [b [Hb H]]].
  - left. apply occursIgnoringCase_lower. apply occursIgnoringCase_lower in H.
    eapply occursIn_trans; [apply occursIn_lower, Hq | exact H].
  - right. exists b. split; [exact Hb |]. eapply occursIn_trans; eassumption.
Qed.

(** Text that differs from ASCII text in the case of letters only is ASCII
    text. *)
Lemma sameLetter_isAscii (c d : ascii) (s : string) :
  sameLetter c d -> Js.isAscii (String c s) = Js.isAscii (String d s).
Proof.
  intros [-> | [n [Hn [[-> ->] | [-> ->]]]]]; [reflexivity | |];
    do 26 (destruct n as [| n]; [reflexivity |]); lia.
Qed.

Lemma sameIgnoringCase_isAscii (s t : string) :
  sameIgnoringCase s t -> Js.isAscii s = Js.isAscii t.
Proof.
  induction 1 as [| c d s t Hcd _ IH]; [reflexivity |].
  rewrite (sameLetter_isAscii c d s Hcd).
  destruct d as [b0 b1 b2 b3 b4 b5 b6 b7]. simpl. rewrite IH. reflexivity.
Qed.

Local Open Scope list_scope.

Lemma filter_narrow {A : Type} (f g : A -> bool) (l : list A) :
  (forall x, In x l -> f x = true -> g x = true) ->
  Subseq (filter f l) (filter g l).
Proof.
  induction l as [| x l IH]; simpl; intros H.
  - constructor.
  - assert (IH' : Subseq (filter f l) (filter g l)).
    { apply IH. intros y Hy. apply H. right. exact Hy. }
    destruct (f x) eqn:Ef.
    + rewrite (H x (or_introl eq_refl) Ef). apply Subseq_keep, IH'.
    + destruct (g x); [apply Subseq_skip, IH' | exact IH'].
Qed.

Lemma step_ChangeSearch (text : string) (w : World) :
  step (ChangeSearch text) w =
  set_ui (set_filteredItems (filter (matchesSearch (engine w) text) (items (ui w)))
            (set_search text (ui w))) w.
Proof. rewrite step_without_scanner; reflexivity. Qed.

(** Typing ASCII text in the search box, over items whose names are ASCII
    text.  The rows shown are the items of the list that match the text, by
    name whatever the case or by bar code; the list itself and the store are
    not touched; and a text that contains an earlier one (as when more
    characters are typed) shows a subsequence of the rows the earlier one
    showed: refining the search never brings a row back. *)
Theorem search_refinement_narrows (q q' : string) (w : World) :
  occursIn q q' ->
  Js.isAscii q' = true ->
  asciiNames (items (ui w)) ->
  let shown := filteredItems (ui (step (ChangeSearch q) w)) in
  let shown' := filteredItems (ui (step (ChangeSearch q') w)) in
  Subseq shown' shown /\
  Kept (Matches q') (items (ui w)) shown' /\
  items (ui (step (ChangeSearch q') w)) = items (ui w) /\
  localStorage (step (ChangeSearch q') w) = localStorage w /\
  editItem (ui (step (ChangeSearch q') w)) = editItem (ui w) /\
  isDialogOpen (ui (step (ChangeSearch q') w)) = isDialogOpen (ui w).
Proof.
  intros Hq Hq' Hn shown shown'. subst shown shown'.
  rewrite !step_ChangeSearch. cbn.
  pose proof (isAscii_occursIn q q' Hq Hq') as Hqa.
  unfold asciiNames in Hn. rewrite Forall_forall in Hn.
  split; [| split; [| repeat split]].
  - apply filter_narrow. intros x Hin Hx.
    apply (matchesSearch_ascii (engine w) q x Hqa (Hn x Hin)).
    apply (matchesSearch_ascii (engine w) q' x Hq' (Hn x Hin)) in Hx.
    exact (Matches_narrow q q' x Hq Hx).
  - apply filter_Kept_in. intros x Hin.
    exact (matchesSearch_ascii (engine w) q' x Hq' (Hn x Hin)).
Qed.

Lemma search_refinement_narrows_witness :
  let a := mkItem 1700000000000 "Tuerca M8" (Js.Num 3) (Some "779") in
  let b := mkItem 1700000002000 "Perno" (Js.Num 5) (Some "12345") in
  let c := mkItem 1700000004000 "TUERCA ciega" (Js.Num 2) None in
  let w := mount Js.asciiEngine (Some [a; b; c]) (mkCamera None false) in
  filteredItems (ui (step (ChangeSearch "tue") w)) = [a; c] /\
  filteredItems (ui (step (ChangeSearch "tuerca m") w)) = [a] /\
  Subseq (filteredItems (ui (step (ChangeSearch "tuerca m") w)))
         (filteredItems (ui (step (ChangeSearch "tue") w))).
Proof.
  intros a b c w. split; [reflexivity |]. split; [reflexivity |].
  apply (search_refinement_narrows "tue" "tuerca m" w).
  - exists "", "rca m". reflexivity.
  - reflexivity.
  - repeat constructor.
Defined.

(** Upper and lower case make no difference to a search typed in ASCII text:
    over items that carry no bar code, two such search texts that differ in
    the case of letters only show the same rows. *)
Theorem search_ignores_case_of_names (q q' : string) (w : World) :
  Js.isAscii q = true ->
  sameIgnoringCase q q' ->
  Forall (fun x => barcode x = None) (items (ui w)) ->
  filteredItems (ui (step (ChangeSearch q) w)) =
  filteredItems (ui (step (ChangeSearch q') w)).
Proof.
  intros Ha Hq Hnone. rewrite !step_ChangeSearch. cbn.
  apply filter_ext_in. intros x Hx.
  rewrite Forall_forall in Hnone. specialize (Hnone x Hx).
  unfold matchesSearch. rewrite Hnone.
  assert (Ha' : Js.isAscii q' = true).
  { rewrite <- (sameIgnoringCase_isAscii q q' Hq). exact Ha. }
  rewrite (Js.toLowerCase_ascii (engine w) q Ha).
  rewrite (Js.toLowerCase_ascii (engine w) q' Ha').
  apply sameIgnoringCase_iff in Hq. rewrite Hq. reflexivity.
Qed.

Lemma search_ignores_case_of_names_witness :
  let a := mkItem 1700000000000 "Tuerca M8" (Js.Num 3) None in
  let b := mkItem 1700000002000 "Perno" (Js.Num 5) None in
  let w := mount Js.asciiEngine (Some [a; b]) (mkCamera None false) in
  filteredItems (ui (step (ChangeSearch "TUERCA") w)) = [a] /\
  filteredItems (ui (step (ChangeSearch "TUERCA") w)) =
  filteredItems (ui (step (ChangeSearch "tuerca") w)).
Proof.
  intros a b w. split; [reflexivity |].
  apply (search_ignores_case_of_names "TUERCA" "tuerca" w).
  - reflexivity.
  - apply sameIgnoringCase_iff. reflexivity.
  - repeat constructor.
Defined.

(* ------------------------------------------------------------------ *)
(** ** Deleting a row *)

(** The delete button of a row.  Every stored item carrying the id of the
    row's item is removed and the others stay, in order; the list is reloaded
    from the store, so that no row with that id is shown any more; the deletion
    is notified.  The dialog and its edit target are left as they were, even
    when the target is the item deleted. *)
Theorem delete_row_removes_item (row : nat) (item : Item) (w : World) :
  nth_error (filteredItems (ui w)) row = Some item ->
  let w' := step (ClickEliminar row) w in
  api.stored w' = removeById (id item) (api.stored w) /\
  Kept (fun x => id x <> id item) (api.stored w) (api.stored w') /\
  items (ui w') = api.stored w' /\
  (forall x, In x (filteredItems (ui w')) -> id x <> id item) /\
  log w' = log w ++ [CallDeleteItem (id item);
                     Notify (mkSnackbar true "Item eliminado" success)] /\
  editItem (ui w') = editItem (ui w) /\
  isDialogOpen (ui w') = isDialogOpen (ui w) /\
  sessions w' = sessions w.
Proof.
  intros Hrow w'. subst w'.
  assert (Hd : exec (dispatch (ClickEliminar row)) w = exec (deleteItem (id item)) w).
  { cbn [dispatch]. unfold exec at 1. unfold bind, getState. cbv iota beta.
    rewrite Hrow. reflexivity. }
  rewrite step_without_scanner; rewrite Hd; [| reflexivity].
  rewrite exec_filterInventory.
  unfold_handlers. cbn. rewrite !stored_set_log. fold (removeById (id item) (api.stored w)).
  split; [reflexivity |]. split; [| split; [reflexivity |]].
  - apply filter_Kept. intros x. rewrite negb_true_iff, Z.eqb_neq. tauto.
  - split; [| rewrite <- app_assoc; repeat split].
    intros x Hx. apply filter_In in Hx. destruct Hx as [Hx _].
    apply removeById_In in Hx. tauto.
Qed.

Lemma delete_row_removes_item_witness :
  let a := mkItem 1700000000000 "Tuerca" (Js.Num 3) (Some "779") in
  let b := mkItem 1700000002000 "Perno" (Js.Num 5) (Some "12345") in
  let w := step (ChangeSearch "per") (mount Js.asciiEngine (Some [a; b]) (mkCamera None false)) in
  filteredItems (ui w) = [b] /\
  api.stored (step (ClickEliminar 0) w) = [a] /\
  filteredItems (ui (step (ClickEliminar 0) w)) = [].
Proof.
  intros a b w.
  destruct (delete_row_removes_item 0 b w eq_refl) as (Hs & _).
  split; [reflexivity |]. split; [exact Hs | reflexivity].
Defined.

(* ------------------------------------------------------------------ *)
(** ** Editing an item that is no longer stored *)

(** A valid form submitted for an edit target whose id the store no longer
    holds (the item was deleted in the meantime): the update is issued and
    changes nothing, no item is created, and yet the dialog closes and the
    update is notified as done. *)
Theorem edit_of_removed_item_is_dropped (f : FormData) (now : Z) (e : Item) (w : World) :
  form_name f <> "" -> positive (form_quantity f) ->
  editItem (ui w) = Some e -> id e <> 0%Z ->
  (forall x, In x (api.stored w) -> id x <> id e) ->
  let w' := exec (handleSubmit f now) w in
  api.stored w' = api.stored w /\
  items (ui w') = api.stored w /\
  log w' = log w ++ [CallUpdateItem (mkItem (id e) (form_name f) (form_quantity f)
                                            (Some (form_barcode f)));
                     Notify (mkSnackbar true "Item actualizado" success)] /\
  isDialogOpen (ui w') = false.
Proof.
  intros Hname Hq He Hid Habsent w'. subst w'.
  assert (Hg : Js.truthy (form_name f) && Js.gt0 (form_quantity f) = true)
    by (apply handleSubmit_guard; auto).
  apply truthyZ_spec in Hid.
  destruct (handleSubmit_update f now w e Hg He Hid) as (Hl & Hs & Hu & _).
  rewrite Hl, Hs, Hu. cbn.
  rewrite (replaceById_absent (edited e f) (api.stored w) Habsent). auto.
Qed.

Lemma edit_of_removed_item_is_dropped_witness :
  let a := mkItem 1700000000000 "Tuerca" (Js.Num 3) (Some "779") in
  let w := run [ClickEditar 0; ClickEliminar 0] (mount Js.asciiEngine (Some [a]) (mkCamera None false)) in
  let f := mkForm "Tuerca M8" (Js.Num 4) "779" in
  isDialogOpen (ui w) = true /\
  editItem (ui w) = Some a /\
  api.stored w = [] /\
  api.stored (exec (handleSubmit f 1700000009000) w) = [].
Proof.
  intros a w f.
  assert (Hname : form_name f <> "") by discriminate.
  assert (Hq : positive (form_quantity f)) by (exists 4%Q; split; reflexivity).
  assert (Hid : id a <> 0%Z) by discriminate.
  destruct (edit_of_removed_item_is_dropped f 1700000009000 a w Hname Hq eq_refl Hid
              (fun x (H : In x []) => match H with end)) as (Hs & _).
  split; [reflexivity |]. split; [reflexivity |]. split; [reflexivity | exact Hs].
Defined.

(* ------------------------------------------------------------------ *)
(** ** The dialog, from opening to submission *)

Lemma step_ClickAgregar (w : World) :
  step ClickAgregar w =
  exec filterInventory (set_ui (set_editItem None (set_isDialogOpen true (ui w))) w).
Proof. rewrite step_without_scanner; reflexivity. Qed.

Lemma step_ClickEditar (row : nat) (item : Item) (w : World) :
  nth_error (filteredItems (ui w)) row = Some item ->
  step (ClickEditar row) w =
  exec filterInventory
       (set_ui (set_isDialogOpen true (set_editItem (Some item) (ui w))) w).
Proof.
  intros Hrow.
  assert (Hd : exec (dispatch (ClickEditar row)) w =
               set_ui (set_isDialogOpen true (set_editItem (Some item) (ui w))) w).
  { cbn [dispatch]. unfold exec. unfold bind at 1. unfold getState. cbv iota beta.
    rewrite Hrow. reflexivity. }
  rewrite step_without_scanner; rewrite Hd; reflexivity.
Qed.

Lemma step_SubmitForm_open (f : FormData) (now : Z) (w : World) :
  isDialogOpen (ui w) = true ->
  step (SubmitForm f now) w = exec filterInventory (exec (handleSubmit f now) w).
Proof.
  intros Hopen.
  assert (Hd : exec (dispatch (SubmitForm f now)) w = exec (handleSubmit f now) w).
  { cbn [dispatch]. unfold exec at 1. unfold bind, getState. cbv iota beta.
    rewrite Hopen. reflexivity. }
  rewrite step_without_scanner; rewrite Hd; [reflexivity |].
  destruct (Js.truthy (form_name f) && Js.gt0 (form_quantity f)) eqn:Hg.
  - destruct (editing (editItem (ui w))) eqn:He.
    + unfold editing in He.
      destruct (editItem (ui w)) as [e |] eqn:Hedit; [| discriminate].
      destruct (handleSubmit_update f now w e Hg Hedit He) as (_ & _ & Hu & _).
      rewrite Hu. reflexivity.
    + destruct (handleSubmit_create f now w Hg He) as (_ & _ & Hu & _).
      rewrite Hu. reflexivity.
  - unfold exec, handleSubmit. rewrite Hg. reflexivity.
Qed.

(** Editing a row: its button, then a valid form.  The item is updated in
    place under its own id with the name, quantity and bar code of the form;
    the other stored items, the length of the list and the ids are unchanged;
    the list is reloaded and filtered again, the update is notified and the
    dialog is closed. *)
Theorem edit_row_then_submit (row : nat) (item : Item) (f : FormData) (now : Z)
        (w : World) :
  nth_error (filteredItems (ui w)) row = Some item ->
  id item <> 0%Z ->
  form_name f <> "" -> positive (form_quantity f) ->
  let w' := run [ClickEditar row; SubmitForm f now] w in
  let item' := mkItem (id item) (form_name f) (form_quantity f) (Some (form_barcode f)) in
  api.stored w' = replaceById item' (api.stored w) /\
  map id (api.stored w') = map id (api.stored w) /\
  items (ui w') = api.stored w' /\
  filteredItems (ui w') = filter (matchesSearch (engine w) (search (ui w))) (api.stored w') /\
  log w' = log w ++ [CallUpdateItem item';
                     Notify (mkSnackbar true "Item actualizado" success)] /\
  isDialogOpen (ui w') = false.
Proof.
  intros Hrow Hid Hname Hq w' item'. subst w' item'. cbn [run].
  rewrite (step_ClickEditar row item w Hrow).
  set (w1 := exec filterInventory _).
  assert (Hg : Js.truthy (form_name f) && Js.gt0 (form_quantity f) = true)
    by (apply handleSubmit_guard; auto).
  apply truthyZ_spec in Hid.
  rewrite (step_SubmitForm_open f now w1 eq_refl).
  destruct (handleSubmit_update f now w1 item Hg eq_refl Hid) as (Hl & Hs & Hu & _).
  change (api.stored w1) with (api.stored w) in Hs, Hu.
  change (log w1) with (log w) in Hl.
  change (search (ui w)) with (search (ui w1)).
  remember (exec (handleSubmit f now) w1) as w2 eqn:Hw2.
  assert (He2 : engine w2 = engine w)
    by (rewrite Hw2, engine_handleSubmit; reflexivity).
  rewrite exec_filterInventory.
  change (api.stored (set_ui ?s w2)) with (api.stored w2).
  cbn [ui set_ui set_filteredItems items filteredItems isDialogOpen log set_log].
  rewrite He2.
  rewrite Hu, Hl, Hs. cbn. rewrite replaceById_ids. repeat split.
Qed.

Lemma edit_row_then_submit_witness :
  let a := mkItem 1700000000000 "Tuerca" (Js.Num 3) None in
  let b := mkItem 1700000002000 "Perno" (Js.Num 7) (Some "99999") in
  let w := mount Js.asciiEngine (Some [a; b]) (mkCamera None false) in
  let f := mkForm "Perno" (Js.Num 8) "99999" in
  api.stored (run [ClickEditar 1; SubmitForm f 1700000009000] w) =
  [a; mkItem 1700000002000 "Perno" (Js.Num 8) (Some "99999")].
Proof.
  intros a b w f.
  assert (Hname : form_name f <> "") by discriminate.
  assert (Hq : positive (form_quantity f)) by (exists 8%Q; split; reflexivity).
  assert (Hid : id b <> 0%Z) by discriminate.
  destruct (edit_row_then_submit 1 b f 1700000009000 w eq_refl Hid Hname Hq)
    as (Hs & _).
  exact Hs.
Defined.

(** Adding an item: the add button, then a valid form.  Whatever edit target
    an earlier dialog left behind, one item is created: the stored list gains,
    at its end, the fields of the form under the clock reading, and nothing
    stored before is changed. *)
Theorem add_then_submit (f : FormData) (now : Z) (w : World) :
  form_name f <> "" -> positive (form_quantity f) ->
  let w' := run [ClickAgregar; SubmitForm f now] w in
  let new := mkItem now (form_name f) (form_quantity f) (Some (form_barcode f)) in
  api.stored w' = api.stored w ++ [new] /\
  items (ui w') = api.stored w' /\
  filteredItems (ui w') = filter (matchesSearch (engine w) (search (ui w))) (api.stored w') /\
  log w' = log w ++ [CallAddItem (mkNewItem (form_name f) (form_quantity f)
                                            (Some (form_barcode f)));
                     Notify (mkSnackbar true "Item creado" success)] /\
  isDialogOpen (ui w') = false.
Proof.
  intros Hname Hq w' new. subst w' new. cbn [run].
  rewrite step_ClickAgregar.
  set (w1 := exec filterInventory _).
  assert (Hg : Js.truthy (form_name f) && Js.gt0 (form_quantity f) = true)
    by (apply handleSubmit_guard; auto).
  rewrite (step_SubmitForm_open f now w1 eq_refl).
  destruct (handleSubmit_create f now w1 Hg eq_refl) as (Hl & Hs & Hu & _).
  change (api.stored w1) with (api.stored w) in Hs, Hu.
  change (log w1) with (log w) in Hl.
  change (search (ui w)) with (search (ui w1)).
  remember (exec (handleSubmit f now) w1) as w2 eqn:Hw2.
  assert (He2 : engine w2 = engine w)
    by (rewrite Hw2, engine_handleSubmit; reflexivity).
  rewrite exec_filterInventory.
  change (api.stored (set_ui ?s w2)) with (api.stored w2).
  cbn [ui set_ui set_filteredItems items filteredItems isDialogOpen log set_log].
  rewrite He2.
  rewrite Hu, Hl, Hs. cbn. repeat split.
Qed.

Lemma add_then_submit_witness :
  let a := mkItem 1700000000000 "Tuerca" (Js.Num 3) None in
  let w := run [ClickEditar 0; ClickCancelar] (mount Js.asciiEngine (Some [a]) (mkCamera None false)) in
  let f := mkForm "Widget" (Js.Num 3) "" in
  editItem (ui w) = Some a /\
  api.stored (run [ClickAgregar; SubmitForm f 1700000009000] w) =
  [a; mkItem 1700000009000 "Widget" (Js.Num 3) (Some "")].
Proof.
  intros a w f.
  assert (Hname : form_name f <> "") by discriminate.
  assert (Hq : positive (form_quantity f)) by (exists 3%Q; split; reflexivity).
  destruct (add_then_submit f 1700000009000 w Hname Hq) as (Hs & _).
  split; [reflexivity | exact Hs].
Defined.

Lemma step_dialog_fields (ev : Event) (w : World) :
  isDialogOpen (ui (step ev w)) = isDialogOpen (ui (exec (dispatch ev) w)) /\
  editItem (ui (step ev w)) = editItem (ui (exec (dispatch ev) w)).
Proof.
  rewrite step_unfold.
  destruct (scannerEffect_frame (isScannerOpen (ui w))
              (exec filterInventory (exec (dispatch ev) w)))
    as (_ & _ & _ & _ & _ & _ & _ & He & Hd & _).
  rewrite He, Hd. split; reflexivity.
Qed.

Lemma dispatch_CameraDecoded_text (k : nat) (s : Session) (text : string) (w : World) :
  nth_error (sessions w) k = Some s ->
  exec (dispatch (CameraDecoded k (DecodedText text))) w =
  set_ui (set_isScannerOpen false
            (set_isDialogOpen true
               (set_editItem (Some (resolved (captured_items s) text)) (ui w)))) w.
Proof.
  intros Hk. cbn [dispatch]. unfold exec. rewrite Hk.
  fold (exec (decodeCallback (captured_items s) (DecodedText text)) w).
  unfold decodeCallback. rewrite exec_bind, handleBarcodeDetected_exec.
  reflexivity.
Qed.

(** How the dialog opens.  A closed dialog is opened by four events only, and
    each sets the edit target in the same step: the add button (no target), a
    row's edit button (that row's item), Enter in the wedge input (the
    resolution of its text against the list in memory) and a bar code decoded
    by a running camera session (its resolution against the list that session
    captured).  A target left over from an earlier dialog is never what a
    newly opened dialog shows. *)
Theorem dialog_opens_with_its_target (ev : Event) (w : World) :
  isDialogOpen (ui w) = false ->
  isDialogOpen (ui (step ev w)) = true ->
  match ev with
  | ClickAgregar => editItem (ui (step ev w)) = None
  | ClickEditar row =>
      exists item, nth_error (filteredItems (ui w)) row = Some item /\
                   editItem (ui (step ev w)) = Some item
  | WedgeKey Enter =>
      editItem (ui (step ev w)) = Some (resolved (items (ui w)) (barcodeInput w))
  | CameraDecoded k (DecodedText text) =>
      exists s, nth_error (sessions w) k = Some s /\
                editItem (ui (step ev w)) = Some (resolved (captured_items s) text)
  | _ => False
  end.
Proof.
  intros Hclosed Hopen.
  destruct (step_dialog_fields ev w) as [Hd He]. rewrite Hd in Hopen. rewrite He.
  clear Hd He.
  destruct ev.
  - cbn [dispatch] in *. reflexivity.
  - cbn [dispatch] in *. unfold exec, bind, getState in *. cbv iota beta in *.
    destruct (nth_error (filteredItems (ui w)) row) as [item |].
    + exists item. split; reflexivity.
    + simpl in Hopen. congruence.
  - cbn [dispatch] in *. unfold exec, bind, getState in Hopen. cbv iota beta in Hopen.
    destruct (nth_error (filteredItems (ui w)) row) as [item |].
    + unfold_handlers. cbn in Hopen. congruence.
    + simpl in Hopen. congruence.
  - cbn [dispatch] in *. simpl in Hopen. discriminate.
  - cbn [dispatch] in *. unfold exec, bind, getState in Hopen. cbv iota beta in Hopen.
    rewrite Hclosed in Hopen. simpl in Hopen. congruence.
  - cbn [dispatch] in *. simpl in Hopen. congruence.
  - cbn [dispatch] in *. destruct k as [| c].
    + rewrite onKeyDown_Enter_exec, handleBarcodeDetected_exec. reflexivity.
    + simpl in Hopen. congruence.
  - cbn [dispatch] in *. simpl in Hopen. congruence.
  - cbn [dispatch] in *. simpl in Hopen. congruence.
  - destruct (nth_error (sessions w) session) as [s |] eqn:Hk.
    + destruct d as [text | b].
      * exists s. split; [reflexivity |].
        rewrite (dispatch_CameraDecoded_text session s text w Hk). reflexivity.
      * cbn [dispatch] in Hopen. unfold exec in Hopen. rewrite Hk in Hopen.
        destruct b; simpl in Hopen; congruence.
    + cbn [dispatch] in Hopen. unfold exec in Hopen. rewrite Hk in Hopen.
      simpl in Hopen. destruct d; congruence.
  - cbn [dispatch] in *. simpl in Hopen. congruence.
Qed.

Lemma dialog_opens_with_its_target_witness :
  let a := mkItem 1700000000000 "Tuerca" (Js.Num 3) (Some "779") in
  let b := mkItem 1700000002000 "Perno" (Js.Num 5) None in
  let w := run [ClickEditar 0; ClickCancelar] (mount Js.asciiEngine (Some [a; b]) (mkCamera None false)) in
  editItem (ui w) = Some a /\
  editItem (ui (step ClickAgregar w)) = None /\
  editItem (ui (step (ClickEditar 1) w)) = Some b.
Proof.
  intros a b w. split; [reflexivity |]. split.
  - exact (dialog_opens_with_its_target ClickAgregar w eq_refl eq_refl).
  - destruct (dialog_opens_with_its_target (ClickEditar 1) w eq_refl eq_refl)
      as [item [Hrow He]].
    rewrite He. f_equal. simpl in Hrow. congruence.
Defined.

(** A result of a camera session is resolved against the list that session
    captured when the scanner was opened, whatever the list in memory has
    become; the dialog opens on the outcome, the overlay closes, and the
    session goes on running. *)
Theorem camera_result_resolved_on_captured_list
        (k : nat) (s : Session) (text : string) (w : World) :
  nth_error (sessions w) k = Some s ->
  let w' := step (CameraDecoded k (DecodedText text)) w in
  editItem (ui w') = Some (resolved (captured_items s) text) /\
  isDialogOpen (ui w') = true /\
  isScannerOpen (ui w') = false /\
  sessions w' = sessions w /\
  items (ui w') = items (ui w) /\
  localStorage w' = localStorage w.
Proof.
  intros Hk w'. subst w'. rewrite step_unfold.
  rewrite (dispatch_CameraDecoded_text k s text w Hk).
  rewrite scannerEffect_closed by reflexivity.
  repeat split.
Qed.

Lemma camera_result_resolved_on_captured_list_witness :
  let t := 1700000000000%Z in
  let w := run [ClickEscanear;
                CameraDecoded 0 (DecodedText "123");
                SubmitForm (mkForm "Tuerca" (Js.Num 1) "123") t]
               (mount Js.asciiEngine None (mkCamera (Some ["cam0"]) true)) in
  items (ui w) = [mkItem t "Tuerca" (Js.Num 1) (Some "123")] /\
  nth_error (sessions w) 0 = Some (mkSession []) /\
  editItem (ui (step (CameraDecoded 0 (DecodedText "123")) w)) =
    Some (mkItem 0 "" (Js.Num 1) (Some "123")).
Proof.
  intros t w. split; [reflexivity |]. split; [reflexivity |].
  apply (camera_result_resolved_on_captured_list 0 (mkSession []) "123" w).
  reflexivity.
Defined.

(* ------------------------------------------------------------------ *)
(** ** The wedge scanner *)

Lemma run_app (evs1 evs2 : list Event) (w : World) :
  run (evs1 ++ evs2) w = run evs2 (run evs1 w).
Proof.
  revert w. induction evs1 as [| ev evs1 IH]; intros w; simpl;
    [reflexivity | apply IH].
Qed.

Lemma step_WedgeChar (c : ascii) (w : World) :
  step (WedgeKey (Char c)) w =
  exec filterInventory (set_barcodeInput (barcodeInput w ++ String c "")%string w).
Proof. rewrite step_without_scanner; reflexivity. Qed.

Lemma step_WedgeEnter (w : World) :
  step (WedgeKey Enter) w =
  exec filterInventory
       (set_barcodeInput ""
          (set_ui (set_isDialogOpen true
                     (set_editItem (Some (resolved (items (ui w)) (barcodeInput w)))
                                   (ui w))) w)).
Proof.
  rewrite step_without_scanner; cbn [dispatch];
    rewrite onKeyDown_Enter_exec, handleBarcodeDetected_exec; reflexivity.
Qed.

Lemma run_typed (code : string) (w : World) :
  barcodeInput (run (typed code) w) = (barcodeInput w ++ code)%string /\
  items (ui (run (typed code) w)) = items (ui w) /\
  localStorage (run (typed code) w) = localStorage w /\
  editItem (ui (run (typed code) w)) = editItem (ui w) /\
  isDialogOpen (ui (run (typed code) w)) = isDialogOpen (ui w).
Proof.
  revert w. induction code as [| c code IH]; intros w; cbn [typed run].
  - split; [| repeat split]. induction (barcodeInput w) as [| a s IHs]; simpl;
      [reflexivity | rewrite <- IHs; reflexivity].
  - destruct (IH (step (WedgeKey (Char c)) w)) as (H1 & H2 & H3 & H4 & H5).
    rewrite H1, H2, H3, H4, H5, step_WedgeChar. cbn.
    split; [| repeat split].
    rewrite string_app_assoc. reflexivity.
Qed.

(** A wedge scanner types its code key by key and ends with Enter.  The text
    resolved is everything the hidden input holds at that moment, characters
    left from before included; the dialog opens on the resolution against the
    list in memory, the input is emptied, and nothing is written. *)
Theorem wedge_scan_resolves_typed_text (code : string) (w : World) :
  let w' := run (typed code ++ [WedgeKey Enter]) w in
  editItem (ui w') = Some (resolved (items (ui w)) (barcodeInput w ++ code)%string) /\
  isDialogOpen (ui w') = true /\
  barcodeInput w' = "" /\
  items (ui w') = items (ui w) /\
  localStorage w' = localStorage w.
Proof.
  intros w'. subst w'. rewrite run_app. cbn [run].
  destruct (run_typed code w) as (H1 & H2 & H3 & _).
  rewrite step_WedgeEnter. cbn. rewrite H1, H2, H3. repeat split.
Qed.

(* ------------------------------------------------------------------ *)
(** ** Opening the scanner again and again *)

Lemma open_close_once (w : World) (d : string) (ds : list string) :
  isScannerOpen (ui w) = false -> loading (ui w) = false -> error (ui w) = None ->
  videoInputDevices (camera w) = Some (d :: ds) ->
  streamGranted (camera w) = true ->
  let w' := step ClickCerrar (step ClickEscanear w) in
  sessions w' = sessions w ++ [mkSession (items (ui w))] /\
  isScannerOpen (ui w') = false /\
  loading (ui w') = false /\
  error (ui w') = None /\
  camera w' = camera w /\
  items (ui w') = items (ui w).
Proof.
  intros Hclosed Hload Herr Hdev Hgrant w'. subst w'.
  rewrite (step_unfold ClickCerrar), scannerEffect_closed by reflexivity.
  unfold step. rewrite Hclosed.
  unfold exec, dispatch, bind, setIsScannerOpen, filterInventory,
    setFilteredItems, modify, scannerEffect, getState, initScanner,
    videoMounted, decodeFromVideoDevice. cbn.
  rewrite Hload, Herr. cbn. rewrite Hdev, Hgrant. cbn. repeat split; assumption.
Qed.

(** Each time the scanner is opened on a working camera a decode session
    starts, and closing the overlay stops none: after [n] rounds of opening and
    closing, [n] more sessions are running beside those that ran before. *)
Theorem scanner_sessions_accumulate (n : nat) (w : World) (d : string) (ds : list string) :
  isScannerOpen (ui w) = false -> loading (ui w) = false -> error (ui w) = None ->
  videoInputDevices (camera w) = Some (d :: ds) ->
  streamGranted (camera w) = true ->
  sessions (run (openClose n) w) = sessions w ++ repeat (mkSession (items (ui w))) n /\
  isScannerOpen (ui (run (openClose n) w)) = false.
Proof.
  revert w. induction n as [| n IH]; intros w Hclosed Hload Herr Hdev Hgrant.
  - simpl. rewrite app_nil_r. auto.
  - cbn [openClose run].
    destruct (open_close_once w d ds Hclosed Hload Herr Hdev Hgrant)
      as (Hs & Hc & Hl & He & Hcam & Hi).
    rewrite <- Hcam in Hdev, Hgrant.
    destruct (IH _ Hc Hl He Hdev Hgrant) as [IHs IHc].
    rewrite IHs, Hs, Hi, <- app_assoc. auto.
Qed.

Lemma scanner_sessions_accumulate_witness :
  let w := mount Js.asciiEngine (Some [mkItem 1700000000000 "Tuerca" (Js.Num 3) None])
                 (mkCamera (Some ["cam0"; "cam1"]) true) in
  List.length (sessions (run (openClose 3) w)) = 3%nat.
Proof.
  intros w.
  destruct (scanner_sessions_accumulate 3 w "cam0" ["cam1"]
              eq_refl eq_refl eq_refl eq_refl eq_refl) as [Hs _].
  rewrite Hs. reflexivity.
Defined.

(* ------------------------------------------------------------------ *)
(** ** The two revisions of the submit handler *)

Lemma rev1_handleSubmit_update (f : FormData) (now : Z) (w : World) (e : Item) :
  Js.truthy (form_name f) && Js.gt0 (form_quantity f) = true ->
  editItem (ui w) = Some e ->
  log (exec (Rev1.handleSubmit f now) w) =
    log w ++ [CallUpdateItem (Rev1.edited e f);
              Notify (mkSnackbar true "Item actualizado" success)] /\
  api.stored (exec (Rev1.handleSubmit f now) w) =
    replaceById (Rev1.edited e f) (api.stored w) /\
  ui (exec (Rev1.handleSubmit f now) w) =
    set_isDialogOpen false
      (set_loading false
         (set_items (replaceById (Rev1.edited e f) (api.stored w))
            (set_snackbar (mkSnackbar true "Item actualizado" success) (ui w)))).
Proof.
  intros Hg He. unfold exec.
  replace (Rev1.handleSubmit f now w) with
    (((api.updateItem (Rev1.edited e f) ;;
       setSnackbar (mkSnackbar true "Item actualizado" success)) ;;
      loadInventory ;; setIsDialogOpen false) w).
  - unfold_handlers. cbn. rewrite <- app_assoc. repeat split.
  - symmetry. unfold Rev1.handleSubmit. rewrite Hg.
    unfold bind at 1. unfold getState at 1. cbv iota beta. rewrite He. reflexivity.
Qed.

Lemma rev1_handleSubmit_create (f : FormData) (now : Z) (w : World) :
  Js.truthy (form_name f) && Js.gt0 (form_quantity f) = true ->
  editItem (ui w) = None ->
  log (exec (Rev1.handleSubmit f now) w) =
    log w ++ [CallAddItem (Rev1.created f);
              Notify (mkSnackbar true "Item creado" success)] /\
  api.stored (exec (Rev1.handleSubmit f now) w) =
    api.stored w ++ [api.withId now (Rev1.created f)] /\
  ui (exec (Rev1.handleSubmit f now) w) =
    set_isDialogOpen false
      (set_loading false
         (set_items (api.stored w ++ [api.withId now (Rev1.created f)])
            (set_snackbar (mkSnackbar true "Item creado" success) (ui w)))).
Proof.
  intros Hg He. unfold exec.
  replace (Rev1.handleSubmit f now w) with
    (((api.addItem now (Rev1.created f) ;;
       setSnackbar (mkSnackbar true "Item creado" success)) ;;
      loadInventory ;; setIsDialogOpen false) w).
  - unfold_handlers. cbn. rewrite <- app_assoc. repeat split.
  - symmetry. unfold Rev1.handleSubmit. rewrite Hg.
    unfold bind at 1. unfold getState at 1. cbv iota beta. rewrite He. reflexivity.
Qed.

Lemma withoutBarcode_replaceById (e : Item) (f : FormData) (l : list Item) :
  map withoutBarcode (replaceById (Rev1.edited e f) l) =
  map withoutBarcode (replaceById (edited e f) l).
Proof.
  unfold replaceById. rewrite !map_map. apply map_ext. intros x. cbn.
  destruct (id x =? id e)%Z; reflexivity.
Qed.

(** The submit handler of the revision with bar codes does what the earlier
    one did, bar codes aside.  On every form, and for every edit target the
    earlier revision could have (none, or an item with a real id), the two
    handlers accept or reject alike, leave stored lists that agree item by
    item on id, name and quantity, notify the same, and leave the dialog in
    the same state.  They differ on the placeholder of id 0, which only the
    later revision has and treats as a creation. *)
Theorem submit_revisions_agree (f : FormData) (now : Z) (w : World) :
  (editItem (ui w) = None \/ exists e, editItem (ui w) = Some e /\ id e <> 0%Z) ->
  let w1 := exec (Rev1.handleSubmit f now) w in
  let w2 := exec (handleSubmit f now) w in
  map withoutBarcode (api.stored w1) = map withoutBarcode (api.stored w2) /\
  map withoutBarcode (items (ui w1)) = map withoutBarcode (items (ui w2)) /\
  snackbar (ui w1) = snackbar (ui w2) /\
  isDialogOpen (ui w1) = isDialogOpen (ui w2).
Proof.
  intros Htarget w1 w2. subst w1 w2.
  destruct (Js.truthy (form_name f) && Js.gt0 (form_quantity f)) eqn:Hg.
  - destruct Htarget as [He | [e [He Hid]]].
    + assert (Hed : editing (editItem (ui w)) = false) by (rewrite He; reflexivity).
      destruct (handleSubmit_create f now w Hg Hed) as (Hl & Hs & Hu & _).
      destruct (rev1_handleSubmit_create f now w Hg He) as (Hl1 & Hs1 & Hu1).
      rewrite Hs, Hu, Hs1, Hu1. cbn.
      rewrite !map_app. repeat split.
    + apply truthyZ_spec in Hid.
      destruct (handleSubmit_update f now w e Hg He Hid) as (Hl & Hs & Hu & _).
      destruct (rev1_handleSubmit_update f now w e Hg He) as (Hl1 & Hs1 & Hu1).
      rewrite Hs, Hu, Hs1, Hu1. cbn.
      rewrite withoutBarcode_replaceById. repeat split.
  - unfold exec, Rev1.handleSubmit, handleSubmit. rewrite Hg. repeat split.
Qed.

Lemma submit_revisions_agree_witness :
  let a := mkItem 1700000000000 "Tuerca" (Js.Num 3) None in
  let w := step (ClickEditar 0) (mount Js.asciiEngine (Some [a]) (mkCamera None false)) in
  let f := mkForm "Tuerca M8" (Js.Num 4) "779" in
  api.stored (exec (Rev1.handleSubmit f 1700000009000) w) =
    [mkItem 1700000000000 "Tuerca M8" (Js.Num 4) None] /\
  api.stored (exec (handleSubmit f 1700000009000) w) =
    [mkItem 1700000000000 "Tuerca M8" (Js.Num 4) (Some "779")] /\
  map withoutBarcode (api.stored (exec (Rev1.handleSubmit f 1700000009000) w)) =
  map withoutBarcode (api.stored (exec (handleSubmit f 1700000009000) w)).
Proof.
  intros a w f. split; [reflexivity |]. split; [reflexivity |].
  apply (submit_revisions_agree f 1700000009000 w).
  right. exists a. split; [reflexivity | discriminate].
Defined.
